(** * A shallow embedding of the ticket/branch engine of [sage/dev/sagedev.py]

    The development models the [SageDev] methods that the properties below
    are about: the naming checks, the working-tree guard
    ([reset_to_clean_state], [clean]), [checkout_branch], [checkout_ticket],
    [abandon], [merge] and the push negotiation of [push].

    State is passed explicitly: a [world] holds the persisted registry
    (the four dictionaries of [SageDev]), the local git repository, the
    remote git repository, the trac server and the queue of answers that
    the user interface will give.  A method is a function
    [world -> res A * world]; a Python exception is an [Err] that carries
    the world as it was when the exception was raised (Python does not roll
    back mutations made before a [raise]). *)

From Stdlib Require Import String Ascii ZArith List Bool Lia FinFun.
From stdpp Require Import base gmap strings list.

Local Open Scope Z_scope.
Local Open Scope string_scope.

(* ------------------------------------------------------------------ *)
(** ** Python values, errors and the result type *)

(** A Python argument that may be [None], an [int] or a [str]
    (e.g. [ticket_or_branch]). *)
Inductive pyname : Type :=
| PNone
| PInt (z : Z)
| PStr (s : string).

#[global] Instance pyname_eq_dec : EqDecision pyname.
Proof. solve_decision. Defined.

(** The exceptions raised by the modelled code. *)
Inductive err : Type :=
| SageDevValueError (msg : string)
| OperationCancelledError (msg : string)
| GitError (msg : string)
| PyError (msg : string)   (** [AssertionError], [NotImplementedError] *)
| NoAnswer.   (** the test UI ran out of queued answers *)

Inductive res (A : Type) : Type :=
| Ok (a : A)
| Err (e : err).
Arguments Ok {A} a.
Arguments Err {A} e.

(* ------------------------------------------------------------------ *)
(** ** The state *)

(** The persisted dictionaries of [SageDev]:
    [__ticket_to_branch], [__branch_to_ticket], [__branch_to_remote_branch]
    and [__ticket_dependencies]. *)
Record registry : Type := mkRegistry {
  ticket_to_branch : gmap Z string;
  branch_to_ticket : gmap string Z;
  branch_to_remote_branch : gmap string string;
  ticket_dependencies : gmap Z (list Z)
}.

(** The local git repository: its branches (name to commit), [HEAD]
    ([None] when detached), the commit [HEAD] points to, whether a merge
    is in progress, whether tracked files carry uncommitted changes,
    whether untracked files are present, the size of the stash stack, the
    commit [FETCH_HEAD] points to, and the commits whose tree has a file
    at the path of an untracked file (checking one of them out would
    overwrite that file). *)
Record repo : Type := mkRepo {
  branches : gmap string Z;
  head : option string;
  head_commit : Z;
  merging : bool;
  tracked_dirty : bool;
  untracked : bool;
  stash_size : nat;
  fetch_head : option Z;
  untracked_clash : gset Z
}.

(** The trac server: existing tickets, each ticket's "Branch:" field and
    its dependency field. *)
Record trac : Type := mkTrac {
  tickets : gset Z;
  branch_field : gmap Z string;
  trac_dependencies : gmap Z (list Z)
}.

Record world : Type := mkWorld {
  reg : registry;
  git : repo;
  remote : gmap string Z;     (** branches of the remote repository *)
  trc : trac;
  answers : list string;      (** what the user will type, in order *)
  shown : list string         (** messages shown so far, newest first *)
}.

Definition set_reg (r : registry) (w : world) : world :=
  mkWorld r (git w) (remote w) (trc w) (answers w) (shown w).
Definition set_git (g : repo) (w : world) : world :=
  mkWorld (reg w) g (remote w) (trc w) (answers w) (shown w).
Definition set_remote (m : gmap string Z) (w : world) : world :=
  mkWorld (reg w) (git w) m (trc w) (answers w) (shown w).
Definition set_trc (t : trac) (w : world) : world :=
  mkWorld (reg w) (git w) (remote w) t (answers w) (shown w).
Definition set_answers (a : list string) (w : world) : world :=
  mkWorld (reg w) (git w) (remote w) (trc w) a (shown w).
Definition add_shown (m : string) (w : world) : world :=
  mkWorld (reg w) (git w) (remote w) (trc w) (answers w) (m :: shown w).

(* ------------------------------------------------------------------ *)
(** ** The state-and-exception monad *)

Definition M (A : Type) : Type := world -> res A * world.

Definition ret {A} (a : A) : M A := fun w => (Ok a, w).
Definition raise {A} (e : err) : M A := fun w => (Err e, w).
Definition bind {A B} (c : M A) (k : A -> M B) : M B :=
  fun w => match c w with
           | (Ok a, w') => k a w'
           | (Err e, w') => (Err e, w')
           end.
Definition get : M world := fun w => (Ok w, w).
Definition modify (f : world -> world) : M unit := fun w => (Ok tt, f w).
(** [try: c except: h; raise]: run [h] on failure, then re-raise. *)
Definition on_error {A} (c : M A) (h : M unit) : M A :=
  fun w => match c w with
           | (Ok a, w') => (Ok a, w')
           | (Err e, w') => match h w' with
                            | (Ok _, w'') => (Err e, w'')
                            | (Err e', w'') => (Err e', w'')
                            end
           end.

Notation "'let*' x := c 'in' k" := (bind c (fun x => k))
  (at level 200, x name, c at level 100, k at level 200).
Notation "c ;; k" := (bind c (fun _ => k)) (at level 100, right associativity).

Definition when (b : bool) (c : M unit) : M unit := if b then c else ret tt.

(* ------------------------------------------------------------------ *)
(** ** The user interface *)

Definition show (m : string) : M unit := modify (add_shown m).

(** [UI.select(prompt, options, default)]: the next queued answer; an empty
    answer picks the default (if there is one), an answer that is not an option is asked
    again. *)
Fixpoint pick (opts : list string) (dflt : string) (a : list string)
  : option (string * list string) :=
  match a with
  | [] => None
  | x :: rest =>
      if String.eqb x "" && negb (String.eqb dflt "") then Some (dflt, rest)
      else if existsb (String.eqb x) opts then Some (x, rest)
      else pick opts dflt rest
  end.

Definition select (opts : list string) (dflt : string) : M string :=
  fun w => match pick opts dflt (answers w) with
           | Some (x, rest) => (Ok x, set_answers rest w)
           | None => (Err NoAnswer, w)
           end.

(** [UI.confirm(prompt, default)]. *)
Definition confirm (dflt : bool) : M bool :=
  let* x := select ["yes"; "no"] (if dflt then "yes" else "no") in
  ret (String.eqb x "yes").

(* ------------------------------------------------------------------ *)
(** ** Small string helpers *)

Fixpoint digits_rev (fuel : nat) (n : nat) (acc : string) : string :=
  match fuel with
  | O => acc
  | S f =>
      let acc' := String (ascii_of_nat (48 + Nat.modulo n 10)) acc in
      if Nat.ltb n 10 then acc' else digits_rev f (Nat.div n 10) acc'
  end.

(** [str(z)] for an integer. *)
Definition z_to_string (z : Z) : string :=
  let n := Z.to_nat (Z.abs z) in
  (if Z.ltb z 0 then "-" else "") ++ digits_rev (S n) n "".

Definition is_digit (c : ascii) : bool :=
  let n := nat_of_ascii c in Nat.leb 48 n && Nat.leb n 57.

Definition is_space (c : ascii) : bool :=
  existsb (fun d => Ascii.eqb c (ascii_of_nat d)) [32; 9; 10; 11; 12; 13]%nat.

Fixpoint drop_spaces (l : list ascii) : list ascii :=
  match l with
  | c :: r => if is_space c then drop_spaces r else l
  | [] => []
  end.

Definition strip (s : string) : list ascii :=
  rev (drop_spaces (rev (drop_spaces (list_ascii_of_string s)))).

Fixpoint digits_value (l : list ascii) (acc : Z) : option Z :=
  match l with
  | [] => Some acc
  | c :: r =>
      if is_digit c then digits_value r (acc * 10 + Z.of_nat (nat_of_ascii c - 48))
      else None
  end.

Definition parse_digits (l : list ascii) : option Z :=
  match l with [] => None | _ => digits_value l 0 end.

(** Python 2's [int(s)] on a byte string: surrounding white space, an
    optional sign, then decimal digits. *)
Definition py_int (s : string) : option Z :=
  match strip s with
  | c :: r =>
      if Ascii.eqb c "+" then parse_digits r
      else if Ascii.eqb c "-" then option_map Z.opp (parse_digits r)
      else parse_digits (c :: r)
  | [] => None
  end.

Definition starts_with (p s : string) : bool := String.prefix p s.

(** The characters before the first newline: what [.] runs over in a
    Python regular expression. *)
Fixpoint first_line (l : list ascii) : list ascii :=
  match l with
  | [] => []
  | c :: r => if Ascii.eqb c "010" then [] else c :: first_line r
  end.

(** Whether [a] is directly followed by [b] somewhere in [l]. *)
Fixpoint has_pair (a b : ascii) (l : list ascii) : bool :=
  match l with
  | [] => false
  | c :: r =>
      match r with
      | d :: _ => (Ascii.eqb c a && Ascii.eqb d b) || has_pair a b r
      | [] => false
      end
  end.

Fixpoint list_prefix (p l : list ascii) : bool :=
  match p, l with
  | [], _ => true
  | a :: p', b :: l' => Ascii.eqb a b && list_prefix p' l'
  | _ :: _, [] => false
  end.

(** The character class [[^\040\177 ~^:?*[]] of [GIT_BRANCH_REGEX]. *)
Definition branch_char_ok (c : ascii) : bool :=
  negb (existsb (Ascii.eqb c) ["032"; "127"; "~"; "^"; ":"; "?"; "*"; "["]%char).

(** The look-aheads at the start of [GIT_BRANCH_REGEX]: no ["/."], [".."],
    ["//"], ["@{"] and no backslash before the first newline, and no ["/"]
    in front. *)
Definition regex_head_ok (l : list ascii) : bool :=
  let f := first_line l in
  negb (has_pair "/" "." f) && negb (has_pair "." "." f) && negb (has_pair "/" "/" f)
  && negb (has_pair "@" "{" f) && negb (existsb (Ascii.eqb "092") f)
  && match l with c :: _ => negb (Ascii.eqb c "/") | [] => true end.

(** The body [[...]+] matching all of [l], followed by the look-behinds:
    [l] does not end in [".lock"], ["/"] or ["."]. *)
Definition regex_tail_ok (l : list ascii) : bool :=
  match rev l with
  | [] => false
  | c :: _ =>
      negb (Ascii.eqb c "/") && negb (Ascii.eqb c ".") && forallb branch_char_ok l
      && negb (list_prefix (rev (list_ascii_of_string ".lock")) (rev l))
  end.

(** A match of [GIT_BRANCH_REGEX] on [l]: [$] matches at the end or in
    front of a final newline. *)
Definition regex_match (l : list ascii) : bool :=
  regex_head_ok l &&
  (regex_tail_ok l ||
   match rev l with
   | c :: r => Ascii.eqb c "010" && regex_tail_ok (rev r)
   | [] => false
   end).

(** [GIT_BRANCH_REGEX.match(name)] (lines 11-13). *)
Definition git_branch_regex (name : string) : bool :=
  regex_match (list_ascii_of_string name).

Definition MASTER_BRANCH : string := "master".

(** Leaving a loop that the Python code runs without bound ([while True])
    is modelled with fuel; running out of fuel is this error, and the
    theorems show that it does not happen for the loops they use. *)
Definition Diverges : err := GitError "loop does not terminate".

(* ------------------------------------------------------------------ *)
(** ** The engine *)

Section Engine.

(** The test of legal branch names, [GIT_BRANCH_REGEX.match(name)]
    (lines 11-13), defined above as [git_branch_regex]; the naming checks
    that use it are not in the repository's files.  It is kept as a
    parameter: the theorems that do not depend on the grammar hold for any
    test, and the others are stated for [git_branch_regex]. *)
Variable valid_branch_name : string -> bool.
(** [git merge-base --is-ancestor a b]: whether commit [a] is an ancestor
    of (or equal to) commit [b] in the commit graph. *)
Variable is_ancestor : Z -> Z -> bool.
(** The outcome of [git merge]: the new head commit, or [None] on a
    conflict. *)
Variable merge_commit : Z -> Z -> option Z.
(** The commit [git commit -a --no-edit] makes from a resolved conflict. *)
Variable resolution_commit : Z -> Z -> Z.

(* ------------------------------------------------------------------ *)
(** *** Git primitives (the [git] wrapper of [SageDev]) *)

Definition upd_git (f : repo -> repo) : M unit := modify (fun w => set_git (f (git w)) w).

Definition repo_with_branches (m : gmap string Z) (g : repo) : repo :=
  mkRepo m (head g) (head_commit g) (merging g) (tracked_dirty g) (untracked g)
         (stash_size g) (fetch_head g) (untracked_clash g).
Definition repo_with_head (h : option string) (c : Z) (g : repo) : repo :=
  mkRepo (branches g) h c (merging g) (tracked_dirty g) (untracked g)
         (stash_size g) (fetch_head g) (untracked_clash g).
Definition repo_with_tree (mg td ut : bool) (st : nat) (g : repo) : repo :=
  mkRepo (branches g) (head g) (head_commit g) mg td ut st (fetch_head g) (untracked_clash g).
Definition repo_with_fetch_head (c : option Z) (g : repo) : repo :=
  mkRepo (branches g) (head g) (head_commit g) (merging g) (tracked_dirty g)
         (untracked g) (stash_size g) c (untracked_clash g).

Definition branch_exists (b : string) (w : world) : bool :=
  bool_decide (is_Some (branches (git w) !! b)).

(** [git branch name start]: creating a ref is atomic in git (lock file
    and rename), so a failing call leaves no ref behind. *)
Definition git_branch (name : string) (start : Z) : M unit :=
  fun w => if branch_exists name w
           then (Err (GitError "branch already exists"), w)
           else (Ok tt, set_git (repo_with_branches (<[name := start]> (branches (git w))) (git w)) w).

(** [git branch -D name]: git refuses to delete the branch checked out. *)
Definition git_branch_delete (name : string) : M unit :=
  fun w => if bool_decide (head (git w) = Some name)
           then (Err (GitError "Cannot delete the branch which you are currently on"), w)
           else upd_git (fun g => repo_with_branches (delete name (branches g)) g) w.

(** [git branch -m old new]. *)
Definition git_branch_move (old new : string) : M unit :=
  fun w => match branches (git w) !! old with
           | None => (Err (GitError "no such branch"), w)
           | Some c =>
               if branch_exists new w then (Err (GitError "branch already exists"), w)
               else
                 let g := git w in
                 let g' := repo_with_branches (<[new := c]> (delete old (branches g))) g in
                 let h' := if decide (head g = Some old) then Some new else head g in
                 (Ok tt, set_git (repo_with_head h' (head_commit g) g') w)
           end.

(** Whether checking out commit [c] would overwrite an untracked file:
    the tree changes and has a file where an untracked file lies. *)
Definition would_overwrite (c : Z) (g : repo) : bool :=
  untracked g && negb (Z.eqb c (head_commit g)) && bool_decide (c ∈ untracked_clash g).

(** [git checkout branch]: moves [HEAD]; local modifications are carried
    over; git refuses when an untracked file would be overwritten (the
    doctest of lines 681-687). *)
Definition git_checkout (b : string) : M unit :=
  fun w => match branches (git w) !! b with
           | None => (Err (GitError "pathspec did not match"), w)
           | Some c =>
               if would_overwrite c (git w)
               then (Err (GitError "untracked working tree files would be overwritten by checkout"), w)
               else (Ok tt, set_git (repo_with_head (Some b) c (git w)) w)
           end.

(** [git.reset_to_clean_state()]: abort a merge and drop changes to
    tracked files. *)
Definition git_reset_to_clean_state : M unit :=
  upd_git (fun g => repo_with_tree false false (untracked g) (stash_size g) g).

(** [git.clean_wrapper()]: drop changes to tracked files and remove
    untracked files. *)
Definition git_clean_wrapper : M unit :=
  upd_git (fun g => repo_with_tree (merging g) false false (stash_size g) g).

(** [git stash]: tracked changes move to the stash stack. *)
Definition git_stash : M unit :=
  upd_git (fun g => repo_with_tree (merging g) false (untracked g) (S (stash_size g)) g).

(** [git fetch <anonymous repository> remote_branch]. *)
Definition git_fetch (rb : string) : M unit :=
  fun w => match remote w !! rb with
           | None => (Err (GitError "couldn't find remote ref"), w)
           | Some c => (Ok tt, set_git (repo_with_fetch_head (Some c) (git w)) w)
           end.

Definition fetch_head_commit : M Z :=
  fun w => match fetch_head (git w) with
           | Some c => (Ok c, w)
           | None => (Err (GitError "FETCH_HEAD missing"), w)
           end.

(** Move the current branch (if any) and [HEAD] to commit [c]. *)
Definition advance_head (c : Z) (g : repo) : repo :=
  let bs := match head g with
            | Some b => <[b := c]> (branches g)
            | None => branches g
            end in
  repo_with_head (head g) c (repo_with_branches bs g).

(** [git merge ref]: on a conflict the repository is left mid-merge. *)
Definition git_merge (c : Z) : M unit :=
  fun w => let g := git w in
           match merge_commit (head_commit g) c with
           | Some n => (Ok tt, set_git (advance_head n g) w)
           | None => (Err (GitError "Automatic merge failed"),
                      set_git (repo_with_tree true true (untracked g) (stash_size g) g) w)
           end.

(** [git commit -a --no-edit] after a conflict resolution. *)
Definition git_commit_resolution (c : Z) : M unit :=
  upd_git (fun g => repo_with_tree false false (untracked g) (stash_size g)
                      (advance_head (resolution_commit (head_commit g) c) g)).

(** [git push <repository> branch:remote_branch], with [--force] when
    [force]; without it git itself refuses a non-fast-forward. *)
Definition git_push (b rb : string) (force : bool) : M unit :=
  fun w => match branches (git w) !! b with
           | None => (Err (GitError "src refspec does not match"), w)
           | Some c =>
               match remote w !! rb with
               | Some rc =>
                   if force || is_ancestor rc c
                   then (Ok tt, set_remote (<[rb := c]> (remote w)) w)
                   else (Err (GitError "non-fast-forward"), w)
               | None => (Ok tt, set_remote (<[rb := c]> (remote w)) w)
               end
           end.

(* ------------------------------------------------------------------ *)
(** *** Naming and validation *)

(** [_ticket_from_ticket_name] (lines 3003-3005): an [int] is taken as
    it is, a string may carry a leading ["#"] and is then read with
    [int()]; a value [int()] refuses raises at line 3004, and the value
    check raising at line 3005 refuses negative numbers (its condition is
    not in the repository's files). *)
Definition ticket_from_ticket_name (n : pyname) : option Z :=
  let v := match n with
           | PNone => None
           | PInt z => Some z
           | PStr (String c r) => if Ascii.eqb c "#" then py_int r else py_int (String c r)
           | PStr EmptyString => None
           end in
  match v with
  | Some z => if Z.ltb z 0 then None else Some z
  | None => None
  end.

(** [_is_ticket_name(name)] (with the default [exists=False]): [None] is
    not a ticket name; otherwise the name must denote a positive ticket
    number (the doctests reject ["-1"], ["1 000"], ["master"] and [""]). *)
Definition is_ticket_name (n : pyname) : bool :=
  match ticket_from_ticket_name n with
  | Some z => Z.ltb 0 z
  | None => false
  end.

(** The [exists] argument of the naming checks: [any], [True] or [False]. *)
Inductive exists_mode : Type := ExAny | ExTrue | ExFalse.

Definition exists_ok (ex : exists_mode) (present : bool) : bool :=
  match ex with
  | ExAny => true
  | ExTrue => present
  | ExFalse => negb present
  end.

(** [_is_local_branch_name(name, exists)]: names that could be tickets and
    the reserved words are refused first (lines 3010-3014); what follows is
    the git grammar and the existence test. *)
Definition is_local_branch_name (name : string) (ex : exists_mode) (w : world) : bool :=
  if is_ticket_name (PStr name) then false
  else if existsb (String.eqb name) ["None"; "True"; "False"; "dependencies"] then false
  else valid_branch_name name && exists_ok ex (branch_exists name w).

(** [_is_remote_branch_name(name, exists)]. *)
Definition is_remote_branch_name (name : string) (ex : exists_mode) (w : world) : bool :=
  if is_ticket_name (PStr name) then false
  else valid_branch_name name && exists_ok ex (bool_decide (is_Some (remote w !! name))).

(** [_is_trash_name(name, exists)]: a local branch name under ["trash/"]. *)
Definition is_trash_name (name : string) (ex : exists_mode) (w : world) : bool :=
  starts_with "trash/" name && is_local_branch_name name ex w.

(** [_check_local_branch_name(name, exists)]. *)
Definition check_local_branch_name (name : string) (ex : exists_mode) : M unit :=
  fun w =>
    if negb (is_local_branch_name name ExAny w)
    then (Err (SageDevValueError "Invalid branch name"), w)
    else match ex with
         | ExTrue => if branch_exists name w then (Ok tt, w)
                     else (Err (SageDevValueError "Branch does not exist locally."), w)
         | ExFalse => if branch_exists name w
                      then (Err (SageDevValueError "Branch already exists, use a different name."), w)
                      else (Ok tt, w)
         | ExAny => (Ok tt, w)
         end.

(** [_check_ticket_name(name, exists)] (lines 2993-2998) followed by
    [_ticket_from_ticket_name]: a name that is not a ticket name, or with
    [exists] not a ticket on trac, is refused with the message of lines
    2996-2997 when [exists] is set and with that of line 2998 otherwise
    (the doctest at lines 3273-3276 reports ticket [-1] with the first). *)
Definition check_ticket_name (n : pyname) (must_exist : bool) : M Z :=
  fun w =>
    let msg := if must_exist then "Ticket name is not valid or ticket does not exist on trac."
               else "Invalid ticket name" in
    match ticket_from_ticket_name n with
    | Some z =>
        if Z.ltb 0 z && (negb must_exist || bool_decide (z ∈ tickets (trc w))) then (Ok z, w)
        else (Err (SageDevValueError msg), w)
    | None => (Err (SageDevValueError msg), w)
    end.

(* ------------------------------------------------------------------ *)
(** *** The registry store *)

Definition upd_reg (f : registry -> registry) : M unit := modify (fun w => set_reg (f (reg w)) w).

(** Modelled from the spec: the bodies of [_set_local_branch_for_ticket],
    [_has_local_branch_for_ticket] and [_local_branch_for_ticket] (without
    pulling) are not in the repository's files.  Following section 9 of
    the spec, one mutation updates both sides of the ticket/branch link:
    [None] removes the link of [ticket]; a branch must exist locally. *)
Definition set_local_branch_for_ticket (t : Z) (ob : option string) : M unit :=
  match ob with
  | None =>
      upd_reg (fun r =>
        match ticket_to_branch r !! t with
        | Some b => mkRegistry (delete t (ticket_to_branch r)) (delete b (branch_to_ticket r))
                               (branch_to_remote_branch r) (ticket_dependencies r)
        | None => r
        end)
  | Some b =>
      check_local_branch_name b ExTrue ;;
      upd_reg (fun r => mkRegistry (<[t := b]> (ticket_to_branch r)) (<[b := t]> (branch_to_ticket r))
                                   (branch_to_remote_branch r) (ticket_dependencies r))
  end.

(** [_has_local_branch_for_ticket(ticket)]: a link to a branch that no
    longer exists is reported and removed (lines 3134-3137). *)
Definition has_local_branch_for_ticket (t : Z) : M bool :=
  fun w =>
    match ticket_to_branch (reg w) !! t with
    | None => (Ok false, w)
    | Some b =>
        if branch_exists b w then (Ok true, w)
        else (show "Ticket refers to the non-existant local branch" ;;
              set_local_branch_for_ticket t None ;; ret false) w
    end.

(** Modelled from the spec: the default name of a new branch for a ticket
    ("ticket/<id>", the pattern of the doctests), made fresh by appending
    ["_"] as [_new_local_branch_for_trash] does for trash names. *)
Fixpoint fresh_branch_name (fuel : nat) (b : string) (w : world) : option string :=
  match fuel with
  | O => None
  | S f => if branch_exists b w then fresh_branch_name f (b ++ "_") w else Some b
  end.

Definition new_local_branch_for_ticket (t : Z) : M string :=
  fun w => match fresh_branch_name (S (size (branches (git w)))) ("ticket/" ++ z_to_string t) w with
           | Some b => (Ok b, w)
           | None => (Err Diverges, w)
           end.

(** Modelled from the spec: [_dependencies_for_ticket] and
    [_set_dependencies_for_ticket]; the list is stored as given (the
    round-trip of section 8), and [None] or an empty list removes it. *)
Definition dependencies_for_ticket (t : Z) (w : world) : list Z :=
  default [] (ticket_dependencies (reg w) !! t).

Definition set_dependencies_for_ticket (t : Z) (ds : option (list Z)) : M unit :=
  upd_reg (fun r =>
    let m := match ds with
             | Some ((_ :: _) as l) => <[t := l]> (ticket_dependencies r)
             | _ => delete t (ticket_dependencies r)
             end in
    mkRegistry (ticket_to_branch r) (branch_to_ticket r) (branch_to_remote_branch r) m).

(** [_has_ticket_for_local_branch(branch)] (lines 3127-3129). *)
Definition has_ticket_for_local_branch (b : string) : M bool :=
  check_local_branch_name b ExTrue ;;
  fun w => (Ok (bool_decide (is_Some (branch_to_ticket (reg w) !! b))), w).

(** [_ticket_for_local_branch(branch)] (lines 3096-3099). *)
Definition ticket_for_local_branch (b : string) : M Z :=
  check_local_branch_name b ExTrue ;;
  fun w => match branch_to_ticket (reg w) !! b with
           | Some t => (Ok t, w)
           | None => (Err (SageDevValueError "branch must be associated to a ticket"), w)
           end.

(** [_current_ticket()]: the ticket of the current branch, [None] when
    detached or when the branch has no ticket. *)
Definition current_ticket (w : world) : option Z :=
  match head (git w) with
  | Some b => branch_to_ticket (reg w) !! b
  | None => None
  end.

(** Modelled from the spec: [_set_remote_branch_for_branch] and
    [_remote_branch_for_ticket] (bodies not in the repository's files):
    the remote branch recorded for a new ticket branch is the ticket's
    branch field, if set. *)
Definition set_remote_branch_for_branch (b : string) (orb : option string) : M unit :=
  upd_reg (fun r =>
    let m := match orb with
             | Some rb => <[b := rb]> (branch_to_remote_branch r)
             | None => delete b (branch_to_remote_branch r)
             end in
    mkRegistry (ticket_to_branch r) (branch_to_ticket r) m (ticket_dependencies r)).

Definition trac_branch_for_ticket (t : Z) (w : world) : option string :=
  branch_field (trc w) !! t.

(** [_local_branch_for_ticket(ticket, pull_if_not_found)] (lines
    3168-3182): without a local branch it either fails or fetches the
    ticket's branch field into a new local branch. *)
Definition local_branch_for_ticket (t : Z) (pull_if_not_found : bool) : M string :=
  let* has := has_local_branch_for_ticket t in
  if has then fun w => (Ok (default "" (ticket_to_branch (reg w) !! t)), w)
  else if negb pull_if_not_found
  then raise (SageDevValueError "no local branch for ticket")
  else
    check_ticket_name (PInt t) true ;;
    let* w := get in
    match trac_branch_for_ticket t w with
    | None => raise (SageDevValueError "Branch field is not set for ticket on trac.")
    | Some rb =>
        let* b := new_local_branch_for_ticket t in
        (fun w => match git_fetch rb w with
                  | (Ok _, w') => (Ok tt, w')
                  | (Err _, w') => (Err (SageDevValueError "Branch does not exist on the remote server."), w')
                  end) ;;
        let* c := fetch_head_commit in
        git_branch b c ;;
        set_local_branch_for_ticket t (Some b) ;;
        ret b
    end.

(* ------------------------------------------------------------------ *)
(** *** The working-tree guard *)

(** [try: c except OperationCancelledError: h; raise]. *)
Definition on_cancel {A} (c : M A) (h : M unit) : M A :=
  fun w => match c w with
           | (Err (OperationCancelledError m), w') =>
               match h w' with
               | (Ok _, w'') => (Err (OperationCancelledError m), w'')
               | (Err e', w'') => (Err e', w'')
               end
           | r => r
           end.

(** [reset_to_clean_state(error_unless_clean, helpful)] (lines 1205-1249):
    the only unclean git state is a merge in progress (a detached [HEAD]
    is not one, see the doctest of line 1234); the user resets or
    cancels. *)
Definition reset_to_clean_state (error_unless_clean helpful : bool) : M unit :=
  fun w =>
    if negb (merging (git w)) then (Ok tt, w)
    else
      (show "Repository is in an unclean state" ;;
       let* sel := select ["reset"; "cancel"] "cancel" in
       if String.eqb sel "cancel" then
         if negb error_unless_clean then ret tt
         else when helpful (show "(use commit to save changes in a new commit)") ;;
              raise (OperationCancelledError "user requested")
       else git_reset_to_clean_state) w.

(** [clean(error_unless_clean)] (lines 1250-1303): only changes to tracked
    files count as uncommitted (the [status] lines starting with ['?'] are
    left out, and the doctest at line 558 switches branches with an
    untracked file without a prompt).  The second option is ['cancel'] or,
    when the caller does not require a clean tree, ['keep']. *)
Definition clean (error_unless_clean : bool) : M unit :=
  reset_to_clean_state error_unless_clean true ;;
  fun w =>
    if negb (tracked_dirty (git w)) then (Ok tt, w)
    else
      (show "The following files in your working directory contain uncommitted changes:" ;;
       let cancel := if error_unless_clean then "cancel" else "keep" in
       let* sel := select ["discard"; cancel; "stash"] cancel in
       if String.eqb sel "discard" then git_clean_wrapper
       else if String.eqb sel cancel then
         (if error_unless_clean
          then raise (OperationCancelledError "User requested not to clean the working directory.")
          else ret tt)
       else git_stash ;; show "Your changes have been moved to the git stash stack.") w.

Definition commit_for_branch (b : string) (w : world) : option Z := branches (git w) !! b.

(** [checkout_branch(branch, helpful)] (lines 523-706): the branch must
    exist; a merge in progress must be reset; the working tree must be
    cleaned unless [HEAD] and the target are the same commit, in which
    case local changes may be kept. *)
Definition checkout_branch (b : string) (helpful : bool) : M unit :=
  check_local_branch_name b ExTrue ;;
  on_cancel (reset_to_clean_state true false)
            (when helpful (show "Aborting checkout of branch")) ;;
  let* w := get in
  let current_commit := Some (head_commit (git w)) in
  let target_commit := commit_for_branch b w in
  on_cancel (clean (negb (bool_decide (current_commit = target_commit))))
            (when helpful (show "Aborting checkout of branch")) ;;
  git_checkout b.

(* ------------------------------------------------------------------ *)
(** *** The checkout engine *)

(** [git branch name start_ref] for a start given by a ref name. *)
Definition git_branch_from (name start : string) : M unit :=
  fun w => match commit_for_branch start w with
           | Some c => git_branch name c w
           | None => (Err (GitError "not a valid object name"), w)
           end.

(** The [try] block of [checkout_ticket] that creates the new branch
    [branch] (lines 470-508), for the resolved [base] and the ticket's
    branch field [remote_branch]. *)
Definition create_ticket_branch (t : Z) (branch : string) (base : pyname)
    (remote_branch : option string) : M unit :=
  match base with
  | PStr "" =>
      match remote_branch with
      | None => git_branch_from branch MASTER_BRANCH
      | Some rb =>
          let* w := get in
          if negb (is_remote_branch_name rb ExTrue w) then
            show "The branch field on ticket is set to the non-existent branch" ;;
            raise (OperationCancelledError "remote branch does not exist")
          else
            git_fetch rb ;;
            let* c := fetch_head_commit in
            git_branch branch c
      end
  | PStr b =>
      check_local_branch_name b ExTrue ;;
      (match remote_branch with
       | Some _ =>
           show "About to create a new branch for the ticket" ;;
           let* ok := confirm false in
           if ok then ret tt
           else let* _ := has_local_branch_for_ticket t in
                show "Use checkout to work on a local copy of the existing remote branch" ;;
                raise (OperationCancelledError "user requested")
       | None => ret tt
       end) ;;
      git_branch_from branch b
  | _ => raise (SageDevValueError "Invalid branch name")
  end.

(** The [except:] clause of that block (lines 509-512): delete the branch
    if it exists, then re-raise. *)
Definition rollback_branch (branch : string) : M unit :=
  fun w => if is_local_branch_name branch ExTrue w
           then git_branch_delete branch w
           else (Ok tt, w).

(** The first part of [checkout_ticket] (lines 431-454): an existing
    [branch] becomes the ticket's branch; a ticket that already has a
    local branch switches to it; otherwise the name of the branch to
    create is returned. *)
Definition checkout_ticket_start (t : Z) (branch : option string) (base : pyname)
  : M (option string) :=
  let* w := get in
  match branch with
  | Some b =>
      if is_local_branch_name b ExTrue w then
        if negb (bool_decide (base = PStr MASTER_BRANCH)) then
          raise (SageDevValueError "base must not be specified if branch is an existing branch")
        else if String.eqb b MASTER_BRANCH then
          raise (SageDevValueError "branch must not be the master branch")
        else set_local_branch_for_ticket t (Some b) ;; checkout_branch b true ;; ret None
      else ret (Some b)
  | None =>
      let* has := has_local_branch_for_ticket t in
      if has then
        let* b := local_branch_for_ticket t false in
        checkout_branch b true ;; ret None
      else let* b := new_local_branch_for_ticket t in ret (Some b)
  end.

(** The resolution of [base] (lines 459-467): [None] means the current
    ticket; a ticket becomes that ticket's local branch (pulled from trac
    if need be) and the only dependency. *)
Definition resolve_base (base : pyname) (dependencies : list Z) : M (pyname * list Z) :=
  let* w := get in
  let* base := match base with
               | PNone => match current_ticket w with
                          | Some ct => ret (PInt ct)
                          | None => raise (SageDevValueError "currently on no ticket, base must not be None")
                          end
               | _ => ret base
               end in
  if is_ticket_name base then
    let* bt := check_ticket_name base false in
    let* bb := local_branch_for_ticket bt true in
    ret (PStr bb, [bt])
  else ret (base, dependencies).

(** [checkout_ticket(ticket, branch, base)] (lines 172-521). *)
Definition checkout_ticket (ticket : pyname) (branch : option string) (base : pyname) : M unit :=
  let* t := check_ticket_name ticket true in
  let* start := checkout_ticket_start t branch base in
  match start with
  | None => ret tt
  | Some b =>
      let* w := get in
      let* resolved :=
        resolve_base base (default [] (trac_dependencies (trc w) !! t)) in
      let (base', dependencies) := resolved in
      let* w := get in
      let remote_branch := trac_branch_for_ticket t w in
      on_error (create_ticket_branch t b base' remote_branch) (rollback_branch b) ;;
      set_local_branch_for_ticket t (Some b) ;;
      when (negb (bool_decide (dependencies = [])))
           (set_dependencies_for_ticket t (Some dependencies)) ;;
      let* w := get in
      set_remote_branch_for_branch b (trac_branch_for_ticket t w) ;;
      checkout_branch b true
  end.

(* ------------------------------------------------------------------ *)
(** *** Abandoning a branch *)

(** [_new_local_branch_for_trash(branch)] (lines 3184-3197): try
    ["trash/" + branch], appending ["_"] to [branch] until the name is a
    trash name of no existing branch. *)
Fixpoint trash_name_loop (fuel : nat) (b : string) (w : world) : option string :=
  match fuel with
  | O => None
  | S f =>
      let tb := "trash/" ++ b in
      if is_trash_name tb ExFalse w then Some tb else trash_name_loop f (b ++ "_") w
  end.

Definition new_local_branch_for_trash (b : string) : M string :=
  fun w => match trash_name_loop (S (size (branches (git w)))) b w with
           | Some tb => (Ok tb, w)
           | None => (Err Diverges, w)
           end.

(** Whether [HEAD] is the branch [b] ([git.current_branch() == branch];
    a detached [HEAD] raises [DetachedHeadError], which [abandon]
    ignores). *)
Definition is_current_branch (b : string) (w : world) : bool :=
  bool_decide (head (git w) = Some b).

(** [abandon(ticket_or_branch, helpful)] (lines 1735-1825).  A [None]
    argument stands for the current branch, as the docstring says (the
    lines doing so are not in the repository's files). *)
Definition abandon (ticket_or_branch : pyname) (helpful : bool) : M unit :=
  let* w := get in
  let* start :=
    (if is_ticket_name ticket_or_branch then
       let* t := check_ticket_name ticket_or_branch false in
       let* has := has_local_branch_for_ticket t in
       if negb has then raise (SageDevValueError "Cannot abandon: no local branch for this ticket.")
       else let* b := local_branch_for_ticket t false in ret (Some t, b)
     else match ticket_or_branch with
          | PStr b => ret (None, b)
          | PNone => match head (git w) with
                     | Some b => ret (None, b)
                     | None => raise (GitError "detached head")
                     end
          | PInt _ => raise (SageDevValueError "Invalid branch name")
          end) in
  let (ticket, b) := start in
  let* hast := has_ticket_for_local_branch b in
  let* ticket := if hast then let* t := ticket_for_local_branch b in ret (Some t)
                 else ret ticket in
  let* w := get in
  if is_local_branch_name b ExAny w then
    check_local_branch_name b ExTrue ;;
    (if String.eqb b MASTER_BRANCH then
       show "Cannot delete the master branch." ;;
       raise (OperationCancelledError "protecting the user")
     else ret tt) ;;
    let* w := get in
    (if is_current_branch b w then
       show "Cannot delete: is the current branch." ;;
       raise (OperationCancelledError "can not delete current branch")
     else ret tt) ;;
    let* nb := new_local_branch_for_trash b in
    git_branch_move b nb ;;
    show "Moved your branch to the trash" ;;
    match ticket with
    | Some t =>
        if Z.eqb t 0 then ret tt
        else set_local_branch_for_ticket t None ;;
             set_dependencies_for_ticket t None ;;
             when helpful (show "Use checkout to restart working on the ticket")
    | None => ret tt
    end
  else raise (SageDevValueError "ticket_or_branch must be the name of a ticket or a local branch").

(* ------------------------------------------------------------------ *)
(** *** Merging *)

(** What [merge] decides before merging (lines 2131-2169): the ticket to
    record as a dependency, the local branch and the remote branch to
    merge, whether to pull, whether to record a dependency. *)
Record merge_plan : Type := mkPlan {
  plan_ticket : option Z;
  plan_branch : option string;
  plan_remote_branch : option string;
  plan_pull : bool;
  plan_create_dependency : bool
}.

(** The [elif] chain of [merge] after the ['dependencies'] case.  In the
    local-branch case the lines [else: create_dependency = False] and the
    [else:] that opens the remote-branch case are not in the repository's
    files; their indentation and the remote-branch comment place them. *)
Definition merge_plan_for (current_ticket : option Z) (tob : pyname)
    (pull create_dependency : option bool) : M merge_plan :=
  let* w := get in
  if is_ticket_name tob then
    let* t := check_ticket_name tob false in
    if bool_decide (Some t = current_ticket) then
      raise (SageDevValueError "cannot merge a ticket into itself")
    else
      let* _ := check_ticket_name (PInt t) true in
      let pull := default true pull in
      let cd := default true create_dependency in
      let* has := has_local_branch_for_ticket t in
      let* br := if has then let* b := local_branch_for_ticket t false in ret (Some b)
                 else ret None in
      if pull then
        let* w := get in
        match trac_branch_for_ticket t w with
        | None => show "Cannot merge remote branch because no branch has been set on the trac ticket." ;;
                  raise (OperationCancelledError "remote branch not set on trac")
        | Some rb => ret (mkPlan (Some t) br (Some rb) true cd)
        end
      else ret (mkPlan (Some t) br None false cd)
  else
    match tob with
    | PStr s =>
        if bool_decide (pull = Some false)
           || (bool_decide (pull = None) && negb (is_remote_branch_name s ExTrue w)) then
          check_local_branch_name s ExTrue ;;
          if bool_decide (create_dependency = Some true) then
            let* hast := has_ticket_for_local_branch s in
            if hast then let* t := ticket_for_local_branch s in
                         ret (mkPlan (Some t) (Some s) None false true)
            else raise (SageDevValueError "create_dependency must not be True for a branch without ticket")
          else ret (mkPlan None (Some s) None false false)
        else
          (if is_remote_branch_name s ExTrue w then ret tt
           else raise (SageDevValueError "Branch does not exist on the remote system.")) ;;
          if bool_decide (create_dependency = Some true) then
            raise (SageDevValueError "create_dependency must not be True for a remote branch")
          else ret (mkPlan None None (Some s) true false)
    | _ => raise (SageDevValueError "Invalid branch name")
    end.

(** The merge itself with the conflict loop (lines 2171-2213): on a
    conflict the user either has the resolution committed (['ok']) or
    aborts; any failure resets the working tree and is re-raised. *)
Definition merge_commit_into_head (src : Z) : M unit :=
  fun w =>
    match git_merge src w with
    | (Ok _, w') => show "Automatic merge successful." w'
    | (Err _, w') =>
        on_error
          (show "Automatic merge failed, there are conflicting commits." ;;
           let* sel := select ["ok"; "abort"] "abort" in
           if String.eqb sel "ok" then
             git_commit_resolution src ;; show "Created a commit from your conflict resolution."
           else raise (OperationCancelledError "user requested"))
          (git_reset_to_clean_state ;; git_clean_wrapper) w'
    end.

(** Recording the dependency (lines 2214-2222). *)
Definition record_dependency (ticket current : Z) : M unit :=
  fun w =>
    let dependencies := dependencies_for_ticket current w in
    if existsb (Z.eqb ticket) dependencies then (Ok tt, w)
    else (show "Added dependency" ;;
          set_dependencies_for_ticket current (Some (app dependencies [ticket]))) w.

(** The working tree must be clean and [HEAD] on a branch (lines
    2100-2116); returns the current ticket. *)
Definition merge_prelude : M (option Z) :=
  fun w =>
    match (reset_to_clean_state true true ;; clean true) w with
    | (Err (OperationCancelledError _), w') =>
        (show "Cannot merge because working directory is not in a clean state." ;;
         raise (OperationCancelledError "working directory not clean")) w'
    | (Err e, w') => (Err e, w')
    | (Ok _, w') =>
        match head (git w') with
        | None => (show "Not on any branch." ;; raise (OperationCancelledError "detached head")) w'
        | Some _ => (Ok (current_ticket w'), w')
        end
    end.

(** [merge(ticket_or_branch, pull, create_dependency)] for a target other
    than ['dependencies']. *)
Definition merge_single (tob : pyname) (pull create_dependency : option bool) : M unit :=
  let* ct := merge_prelude in
  let* plan := merge_plan_for ct tob pull create_dependency in
  let* src :=
    (if plan_pull plan then
       match plan_remote_branch plan with
       | Some rb =>
           let* w := get in
           if negb (is_remote_branch_name rb ExTrue w) then
             show "Can not merge remote branch. It does not exist." ;;
             raise (OperationCancelledError "no such branch")
           else show "Merging the remote branch into the local branch." ;;
                git_fetch rb ;; fetch_head_commit
       | None => raise (PyError "assert remote_branch")
       end
     else
       match plan_branch plan with
       | Some b =>
           show "Merging the local branch into the local branch." ;;
           fun w => match commit_for_branch b w with
                    | Some c => (Ok c, w)
                    | None => (Err (GitError "not something we can merge"), w)
                    end
       | None => raise (PyError "assert branch")
       end) in
  merge_commit_into_head src ;;
  if plan_create_dependency plan then
    match plan_ticket plan, ct with
    | Some t, Some c => if Z.eqb t 0 || Z.eqb c 0 then raise (PyError "assert ticket and current_ticket")
                        else record_dependency t c
    | _, _ => raise (PyError "assert ticket and current_ticket")
    end
  else ret tt.

Fixpoint merge_all (ds : list Z) : M unit :=
  match ds with
  | [] => ret tt
  | d :: r => merge_single (PInt d) (Some true) None ;; merge_all r
  end.

(** [merge(ticket_or_branch, pull, create_dependency)] (lines 1911-2222). *)
Definition merge (tob : pyname) (pull create_dependency : option bool) : M unit :=
  if bool_decide (tob = PStr "dependencies") then
    let* ct := merge_prelude in
    match ct with
    | None => raise (SageDevValueError "dependencies can only be merged if currently on a ticket.")
    | Some c =>
        if bool_decide (pull = Some false) then
          raise (SageDevValueError "pull must not be False when merging dependencies.")
        else if bool_decide (create_dependency <> None) then
          raise (SageDevValueError "create_dependency must not be set when merging dependencies.")
        else
          (* no [return] follows the loop of lines 2128-2130: with [ticket],
             [branch] and [remote_branch] all [None], the assertion of line
             2172 ([pull] is [True]) or of line 2182 ([pull] is [None])
             fails *)
          (fun w => merge_all (dependencies_for_ticket c w) w) ;;
          if bool_decide (pull = Some true) then raise (PyError "assert remote_branch")
          else raise (PyError "assert branch")
    end
  else merge_single tob pull create_dependency.

(* ------------------------------------------------------------------ *)
(** *** Pushing *)

Definition local_commit (b : string) : M Z :=
  fun w => match commit_for_branch b w with
           | Some c => (Ok c, w)
           | None => (Err (GitError "unknown branch"), w)
           end.

(** Writing the trac "Branch:" field. *)
Definition set_trac_branch_field (t : Z) (rb : string) : M unit :=
  modify (fun w => set_trc (mkTrac (tickets (trc w)) (<[t := rb]> (branch_field (trc w)))
                                   (trac_dependencies (trc w))) w).

Definition set_trac_dependencies (t : Z) (ds : list Z) : M unit :=
  modify (fun w => set_trc (mkTrac (tickets (trc w)) (branch_field (trc w))
                                   (<[t := ds]> (trac_dependencies (trc w)))) w).

(** Negotiating the trac "Branch:" field after a push (lines 1157-1174).
    The condition of the divergence test (between lines 1160 and 1161) is
    not in the repository's files: it is the one the error text and the
    hint of lines 1161-1170 describe, namely the field's current branch
    is not an ancestor of the pushed branch and [--force] was not given
    (the hint proposes [push --force] to overwrite the field).  The
    question of lines 1171-1174 is asked only when the field was set
    (those lines are nested in the [current_remote_branch is not None]
    block; the doctest at lines 923-925 sets an empty field without a
    question).  What follows the question is not in the files either:
    the push is cancelled when the user refuses, and the field is written
    otherwise. *)
Definition update_branch_field (ticket : option Z) (branch rb : string) (force : bool) : M unit :=
  match ticket with
  | None => ret tt
  | Some t =>
      let* w := get in
      let current_remote_branch := trac_branch_for_ticket t w in
      if bool_decide (current_remote_branch = Some rb) then ret tt
      else
        (match current_remote_branch with
         | Some crb =>
             git_fetch crb ;;
             let* fh := fetch_head_commit in
             let* lc := local_commit branch in
             (if negb force && negb (is_ancestor fh lc) then
                show "Not setting the branch field because the branches have diverged." ;;
                show "Use push --force to overwrite the branch field; use pull to merge the changes." ;;
                raise (OperationCancelledError "not a fast-forward")
              else ret tt) ;;
             show "The branch field of the ticket needs to be updated" ;;
             let* ok := confirm true in
             if ok then ret tt else raise (OperationCancelledError "user requested")
         | None => ret tt
         end) ;;
        set_trac_branch_field t rb
  end.

(** Reconciling the dependencies with trac (lines 1175-1204); the test
    [old_dependencies != new_dependencies] opening line 1182's block is
    not in the files, its [else:] (line 1197) is. *)
Definition reconcile_dependencies (ticket : option Z) (branch : string) : M unit :=
  match ticket with
  | None => ret tt
  | Some t =>
      if Z.eqb t 0 then ret tt else
      let* hast := has_ticket_for_local_branch branch in
      if negb hast then ret tt else
      let* bt := ticket_for_local_branch branch in
      let* w := get in
      let old := default [] (trac_dependencies (trc w) !! t) in
      let new := dependencies_for_ticket bt w in
      let* upload :=
        (if bool_decide (old <> new) then
           match old with
           | [] => ret true
           | _ :: _ =>
               show "Trac ticket depends on other tickets than your local branch." ;;
               let* sel := select ["upload"; "download"; "keep"] "" in
               if String.eqb sel "keep" then ret false
               else if String.eqb sel "download" then
                 set_dependencies_for_ticket t (Some old) ;; ret false
               else if String.eqb sel "upload" then ret true
               else raise (PyError "NotImplementedError")
           end
         else ret false) in
      if upload then show "Uploading your dependencies" ;; set_trac_dependencies t new
      else ret tt
  end.

(** The push proper (lines 1123-1204), once [ticket], the local [branch]
    and the destination [remote_branch] are resolved and the user has
    agreed to push there.  Two conditions are not in the repository's
    files and are placed by what surrounds them: the fast-forward test
    before the error of lines 1127-1131 (the remote head is an ancestor
    of the local head, unless [force]) and the end of the
    "identical" case of lines 1132-1137, which stops the push: in the
    doctest of line 1030 a push of an unchanged branch whose local
    dependencies differ from trac's shows nothing after that message. *)
Definition push_branch (ticket : option Z) (branch rb : string) (force : bool) : M unit :=
  let* w := get in
  let remote_branch_exists := is_remote_branch_name rb ExTrue w in
  (if negb remote_branch_exists then
     show "The branch does not exist on the remote server." ;;
     let* ok := confirm true in
     if ok then ret tt else raise (OperationCancelledError "user requested")
   else
     git_fetch rb ;;
     let* fh := fetch_head_commit in
     let* lc := local_commit branch in
     if negb force && negb (is_ancestor fh lc) then
       show "Not pushing your changes because they would discard some of the commits on the remote branch." ;;
       show "Use push --force if you really want to overwrite the remote branch." ;;
       raise (OperationCancelledError "not a fast-forward")
     else ret tt) ;;
  let* w := get in
  if remote_branch_exists && negb force
     && bool_decide (commit_for_branch branch w = fetch_head (git w)) then
    show "Remote branch is idential to your local branch"
  else
    (if negb force && remote_branch_exists then
       show "Local commits that are not on the remote branch:" ;;
       let* ok := confirm true in
       if ok then ret tt else raise (OperationCancelledError "user requested")
     else ret tt) ;;
    git_push branch rb force ;;
    update_branch_field ticket branch rb force ;;
    reconcile_dependencies ticket branch.


(* ------------------------------------------------------------------ *)
(** *** Showing dependencies *)

(** The [for d in deps] loop of [show_dependencies] (lines 2800-2802):
    [d] is pushed unless it is on the stack or in [ret] already.  The
    stack is kept with its top first: [stack.append(d)] is [d :: stack]
    and [stack.pop()] takes the head. *)
Fixpoint push_dependencies (deps stack seen : list Z) : list Z :=
  match deps with
  | [] => stack
  | d :: ds =>
      push_dependencies ds
        (if existsb (Z.eqb d) stack || existsb (Z.eqb d) seen then stack else d :: stack)
        seen
  end.

(** The [while stack] loop of [show_dependencies] (lines 2792-2802);
    [seen] is the list the code calls [ret]. *)
Fixpoint dependency_walk (fuel : nat) (stack seen : list Z) : M (list Z) :=
  match fuel with
  | O => raise Diverges
  | S f =>
      match stack with
      | [] => ret seen
      | t :: stack =>
          if existsb (Z.eqb t) seen then dependency_walk f stack seen
          else
            let seen := app seen [t] in
            let* has := has_local_branch_for_ticket t in
            if negb has then
              show "no local branch for ticket present, some dependencies might be missing in the output." ;;
              dependency_walk f stack seen
            else
              let* w := get in
              dependency_walk f (push_dependencies (dependencies_for_ticket t w) stack seen) seen
      end
  end.

(** The fuel of that loop: one round per ticket that can be pushed (the
    starting ticket and the entries of the dependency lists) and a last
    round for the empty stack. *)
Definition dependency_walk_fuel (w : world) : nat :=
  S (S (length (concat (map snd (map_to_list (ticket_dependencies (reg w))))))).

(** [", ".join(["#{0}".format(d) for d in ds])]. *)
Fixpoint join_tickets (ds : list Z) : string :=
  match ds with
  | [] => ""
  | [d] => "#" ++ z_to_string d
  | d :: r => "#" ++ z_to_string d ++ ", " ++ join_tickets r
  end.

(** [show_dependencies(ticket, all)] (lines 2781-2807) up to the list it
    shows, returned with the ticket.  Three lines are not in the
    repository's files: [ret = []] before the loop and the two [else:]
    (before lines 2804 and 2807). *)
Definition show_dependencies_ret (ticket : pyname) (all : bool) : M (Z * list Z) :=
  let* w := get in
  let* ticket := match ticket with
                 | PNone => match current_ticket w with
                            | Some ct => ret (PInt ct)
                            | None => raise (SageDevValueError "ticket must be specified")
                            end
                 | _ => ret ticket
                 end in
  let* t := check_ticket_name ticket false in
  let* has := has_local_branch_for_ticket t in
  if negb has then raise (SageDevValueError "ticket must be a ticket with a local branch.")
  else
    let* _ := local_branch_for_ticket t false in
    let* w := get in
    if all then
      let* seen := dependency_walk (dependency_walk_fuel w) [t] [] in
      ret (t, tl seen)
    else ret (t, dependencies_for_ticket t w).

(** [show_dependencies(ticket, all)] (lines 2781-2807). *)
Definition show_dependencies (ticket : pyname) (all : bool) : M unit :=
  let* r := show_dependencies_ret ticket all in
  let (t, deps) := r in
  match deps with
  | [] => show ("Ticket #" ++ z_to_string t ++ " has no dependencies.")
  | _ :: _ => show ("Ticket #" ++ z_to_string t ++ " depends on " ++ join_tickets deps ++ ".")
  end.

End Engine.

(* ------------------------------------------------------------------ *)
(** * Verification *)

(** ** Relations between worlds and other auxiliary definitions *)

(** [pres R c]: every run of [c] relates its start and end worlds by [R]. *)
Definition pres {A} (R : world -> world -> Prop) (c : M A) : Prop :=
  forall w r w', c w = (r, w') -> R w w'.

(** What a merge keeps: [HEAD], the existing branches and their tickets. *)
Definition keeps_links (w w' : world) : Prop :=
  head (git w') = head (git w) /\
  forall b, branch_exists b w = true ->
            branch_exists b w' = true /\ branch_to_ticket (reg w') !! b = branch_to_ticket (reg w) !! b.

(** ... and the dependency lists as well. *)
Definition keeps_deps (w w' : world) : Prop :=
  keeps_links w w' /\ ticket_dependencies (reg w') = ticket_dependencies (reg w).

(** Worlds that differ in the user interface only. *)
Definition same_rg (w w' : world) : Prop := reg w' = reg w /\ git w' = git w.

(** The locally stored dependency lists. *)
Definition deps_of (w : world) : gmap Z (list Z) := ticket_dependencies (reg w).

(** [HEAD], when attached, names an existing branch. *)
Definition head_ok (w : world) : bool :=
  match head (git w) with Some b => branch_exists b w | None => true end.

(** What the guard of [checkout_branch] keeps: everything but the working
    tree and the answers. *)
Definition keeps_refs (w w' : world) : Prop :=
  reg w' = reg w /\ branches (git w') = branches (git w) /\ head (git w') = head (git w) /\
  head_commit (git w') = head_commit (git w) /\ remote w' = remote w /\ trc w' = trc w.

(** The local branches are the same. *)
Definition keeps_branches (w w' : world) : Prop := branches (git w') = branches (git w).

(** [HEAD] is the same. *)
Definition keeps_head (w w' : world) : Prop := head (git w') = head (git w).

(** Failing computations that leave the local branches alone. *)
Definition err_keeps_branches {A} (c : M A) : Prop :=
  forall w e w', c w = (Err e, w') -> branches (git w') = branches (git w).

(** The [k]-th name [_new_local_branch_for_trash] tries for [b]. *)
Fixpoint trash_candidate (k : nat) (b : string) : string :=
  match k with
  | O => "trash/" ++ b
  | S k => trash_candidate k (b ++ "_")
  end.


(** Whether the ticket [t] is linked to a branch that exists. *)
Definition has_link (t : Z) (w : world) : bool :=
  match ticket_to_branch (reg w) !! t with
  | Some b => branch_exists b w
  | None => false
  end.

(** What [show_dependencies] keeps: the dependency lists, which tickets
    have a local branch, the repositories and trac. *)
Definition keeps_view (w w' : world) : Prop :=
  deps_of w' = deps_of w /\ (forall t, has_link t w' = has_link t w) /\
  git w' = git w /\ remote w' = remote w /\ trc w' = trc w.

(** The loop of [dependency_walk] without effects, for a fixed test
    [hasf] (has a local branch) and fixed dependency lists [depsf]. *)
Fixpoint walk_pure (hasf : Z -> bool) (depsf : Z -> list Z) (fuel : nat) (stack seen : list Z)
  : option (list Z) :=
  match fuel with
  | O => None
  | S f =>
      match stack with
      | [] => Some seen
      | t :: stack =>
          if existsb (Z.eqb t) seen then walk_pure hasf depsf f stack seen
          else
            let seen := app seen [t] in
            if hasf t then walk_pure hasf depsf f (push_dependencies (depsf t) stack seen) seen
            else walk_pure hasf depsf f stack seen
      end
  end.

(** Tickets reachable from [root] along the dependency lists of tickets
    that have a local branch. *)
Inductive reach (hasf : Z -> bool) (depsf : Z -> list Z) (root : Z) : Z -> Prop :=
| reach_root : reach hasf depsf root root
| reach_dep y d : reach hasf depsf root y -> hasf y = true -> In d (depsf y) -> reach hasf depsf root d.


(** The remote repository is left alone. *)
Definition keeps_remote (w w' : world) : Prop := remote w' = remote w.

(** ** Concrete worlds *)

(** A branch-name grammar that accepts every non-empty name, an ancestry
    test by commit number, and merges that make a new commit. *)
Definition vb (s : string) : bool := negb (String.eqb s "").
Definition anc (a b : Z) : bool := Z.leb a b.
Definition mcm (a b : Z) : option Z := Some (Z.max a b + 1).
Definition rcm (a b : Z) : Z := Z.max a b + 1.

Definition empty_registry : registry := mkRegistry ∅ ∅ ∅ ∅.

(** On branch [b] (commit 5); ticket 2's branch field names [u/a/2], at
    commit 7 on the remote, which is not an ancestor of 5. *)
Definition wc1 : world :=
  mkWorld empty_registry
          (mkRepo {["master" := 1; "b" := 5]} (Some "b") 5 false false false 0 None ∅)
          {["u/a/2" := 7; "u/a/new" := 5]} (mkTrac {[2]} {[2 := "u/a/2"]} ∅) ["yes"] [].

(** Local [b] at commit 5 is behind the remote [u/a/b] at commit 7. *)
Definition wc2 : world :=
  mkWorld empty_registry
          (mkRepo {["master" := 1; "b" := 5]} (Some "b") 5 false false false 0 None ∅)
          {["u/a/b" := 7]} (mkTrac ∅ ∅ ∅) [] [].

(** On [ticket/1] for ticket 1, whose dependency list is [[2; 2]]; ticket 2
    has the local branch [ticket/2]. *)
Definition wc3 : world :=
  mkWorld (mkRegistry {[1 := "ticket/1"; 2 := "ticket/2"]} {["ticket/1" := 1; "ticket/2" := 2]} ∅ {[1 := [2; 2]]})
          (mkRepo {["master" := 1; "ticket/1" := 3; "ticket/2" := 4]} (Some "ticket/1") 3 false false false 0 None ∅)
          ∅ (mkTrac {[1; 2]} ∅ ∅) [] [].

(** On [master]; ticket 1 is linked to the local branch [ticket/1]. *)
Definition wc4 : world :=
  mkWorld (mkRegistry {[1 := "ticket/1"]} {["ticket/1" := 1]} ∅ {[1 := [2]]})
          (mkRepo {["master" := 1; "ticket/1" := 3]} (Some "master") 1 false false false 0 None ∅)
          ∅ (mkTrac {[1; 2]} ∅ ∅) [] [].

(** Tickets 2 and 3 have branch fields on trac and no local branch. *)
Definition wc6 : world :=
  mkWorld empty_registry
          (mkRepo {["master" := 1]} (Some "master") 1 false false false 0 None ∅)
          {["u/a/2" := 5; "u/a/3" := 7]} (mkTrac {[1; 2; 3]} {[2 := "u/a/2"; 3 := "u/a/3"]} ∅) ["no"] [].

(** On [master] with an untracked file and no tracked change. *)
Definition wc7 : world :=
  mkWorld empty_registry
          (mkRepo {["master" := 1; "b" := 5]} (Some "master") 1 false false true 0 None ∅)
          ∅ (mkTrac ∅ ∅ ∅) [] [].

(** Ticket 3 lists itself as a dependency on trac. *)
Definition wc8 : world :=
  mkWorld empty_registry
          (mkRepo {["master" := 1]} (Some "master") 1 false false false 0 None ∅)
          ∅ (mkTrac {[3]} ∅ {[3 := [3]]}) [] [].

(** Four tickets, each with a local branch: 4 depends on 2 and 3, both of
    which depend on 1 (the doctest of [show_dependencies]). *)
Definition wc_deps : world :=
  mkWorld (mkRegistry {[1 := "ticket/1"; 2 := "ticket/2"; 3 := "ticket/3"; 4 := "ticket/4"]}
                      {["ticket/1" := 1; "ticket/2" := 2; "ticket/3" := 3; "ticket/4" := 4]} ∅
                      {[4 := [2; 3]; 3 := [1]; 2 := [1]]})
          (mkRepo {["master" := 1; "ticket/1" := 1; "ticket/2" := 2; "ticket/3" := 3; "ticket/4" := 4]}
                  (Some "master") 1 false false false 0 None ∅)
          ∅ (mkTrac {[1; 2; 3; 4]} ∅ ∅) [] [].

(** The branch [b] and its first trash name [trash/b] both exist. *)
Definition wc_trash : world :=
  mkWorld empty_registry
          (mkRepo {["master" := 1; "b" := 2; "trash/b" := 2]} (Some "master") 1 false false false 0 None ∅)
          ∅ (mkTrac ∅ ∅ ∅) [] [].


(** On [master] with uncommitted changes to tracked files; the user will
    answer ["stash"]. *)
Definition wc_dirty : world :=
  mkWorld empty_registry
          (mkRepo {["master" := 1]} (Some "master") 1 false true true 0 None ∅)
          ∅ (mkTrac ∅ ∅ ∅) ["stash"] [].

(** Ticket 5 is linked to [ticket/5], which no longer exists. *)
Definition wc_dangling : world :=
  mkWorld (mkRegistry {[5 := "ticket/5"]} {["ticket/5" := 5]} ∅ ∅)
          (mkRepo {["master" := 1]} (Some "master") 1 false false false 0 None ∅)
          ∅ (mkTrac {[5]} ∅ ∅) [] [].

(** ** Lemmas *)

Ltac bd := repeat match goal with
  | H : bool_decide _ = true |- _ => apply bool_decide_eq_true in H
  | H : bool_decide _ = false |- _ => apply bool_decide_eq_false in H
  end.
Ltac close_is_some := match goal with
  | H : is_Some _ |- _ => destruct H; congruence
  | H : ¬ is_Some _ |- _ => exfalso; apply H; eexists; eauto
  end.
(** C10: [abandon] of the master branch always fails and changes neither
    the registry, the repository, the remote nor trac; for a valid existing
    master branch the error is "protecting the user", after the message
    "Cannot delete the master branch.". *)
Lemma C10_thm (vbn : string -> bool) (helpful : bool) (w : world) :
  let (r, w') := abandon vbn (PStr "master") helpful w in
  (exists e, r = Err e) /\ reg w' = reg w /\ git w' = git w /\ remote w' = remote w /\ trc w' = trc w
  /\ (vbn "master" = true -> branch_exists "master" w = true ->
      r = Err (OperationCancelledError "protecting the user") /\
      hd_error (shown w') = Some "Cannot delete the master branch.").
Proof.
  assert (Ht : is_ticket_name (PStr "master") = false) by reflexivity.
  unfold abandon, has_ticket_for_local_branch, ticket_for_local_branch,
    check_local_branch_name, is_local_branch_name, bind, get, ret, raise, show, modify.
  rewrite !Ht. cbn -[branch_exists].
  destruct (vbn "master") eqn:V; cbn -[branch_exists];
  repeat (case_match; cbn -[branch_exists] in *; simplify_eq); bd;
    repeat (split || intro); eauto; try congruence; try close_is_some.
Qed.
(** C9: a string that is a valid ticket reference is never accepted as a
    local branch name. *)
Lemma C9_thm (vbn : string -> bool) (x : string) (ex : exists_mode) (w : world) :
  is_ticket_name (PStr x) = true -> is_local_branch_name vbn x ex w = false.
Proof. intros H. unfold is_local_branch_name. rewrite H. reflexivity. Qed.
Lemma C9_witness : is_ticket_name (PStr "#12") = true /\ is_local_branch_name (fun _ => true) "#12" ExAny
   (mkWorld (mkRegistry ∅ ∅ ∅ ∅) (mkRepo ∅ None 0 false false false 0 None ∅) ∅ (mkTrac ∅ ∅ ∅) [] []) = false.
Proof. split; [reflexivity | apply C9_thm; reflexivity]. Defined.

Lemma bind_inv {A B} (c : M A) (k : A -> M B) w r w' :
  bind c k w = (r, w') ->
  (exists e, c w = (Err e, w') /\ r = Err e) \/
  (exists a w1, c w = (Ok a, w1) /\ k a w1 = (r, w')).
Proof.
  unfold bind. destruct (c w) as [[a|e] w1] eqn:E; intros H.
  - right. eauto.
  - left. inversion H; subst. eauto.
Qed.


Section Pres.
Context (R : world -> world -> Prop) `{!PreOrder R}.

Lemma pres_bind {A B} (c : M A) (k : A -> M B) :
  pres R c -> (forall a, pres R (k a)) -> pres R (bind c k).
Proof.
  intros Hc Hk w r w' H. apply bind_inv in H as [[e [H1 _]]|[a [w1 [H1 H2]]]].
  - eapply Hc; eauto.
  - etrans; [eapply Hc; eauto | eapply Hk; eauto].
Qed.

Lemma pres_ret {A} (a : A) : pres R (ret a).
Proof. intros w r w' H. inversion H; subst. reflexivity. Qed.

Lemma pres_raise {A} (e : err) : pres R (@raise A e).
Proof. intros w r w' H. inversion H; subst. reflexivity. Qed.

Lemma pres_get : pres R get.
Proof. intros w r w' H. inversion H; subst. reflexivity. Qed.

Lemma pres_modify f : (forall w, R w (f w)) -> pres R (modify f).
Proof. intros Hf w r w' H. inversion H; subst. apply Hf. Qed.

Lemma pres_on_error {A} (c : M A) h : pres R c -> pres R h -> pres R (on_error c h).
Proof.
  intros Hc Hh w r w' H. unfold on_error in H.
  destruct (c w) as [[a|e] w1] eqn:E.
  - inversion H; subst. eapply Hc; eauto.
  - destruct (h w1) as [[u|e'] w2] eqn:E2; inversion H; subst;
      (etrans; [eapply Hc; eauto | eapply Hh; eauto]).
Qed.

Lemma pres_on_cancel {A} (c : M A) h : pres R c -> pres R h -> pres R (on_cancel c h).
Proof.
  intros Hc Hh w r w' H. unfold on_cancel in H.
  destruct (c w) as [[a|e] w1] eqn:E.
  - inversion H; subst. eapply Hc; eauto.
  - destruct e; try (inversion H; subst; eapply Hc; eauto; fail).
    destruct (h w1) as [[u|e'] w2] eqn:E2; inversion H; subst;
      (etrans; [eapply Hc; eauto | eapply Hh; eauto]).
Qed.

Lemma pres_when b c : pres R c -> pres R (when b c).
Proof. intros Hc. destruct b; [exact Hc | apply pres_ret]. Qed.

(** A computation that only reads the world before acting. *)
Lemma pres_read {A} (f : world -> M A) : (forall w0, pres R (f w0)) -> pres R (fun w => f w w).
Proof. intros Hf w r w' H. eapply Hf; eauto. Qed.

Lemma pres_local {A} (f : world -> res A) : pres R (fun w => (f w, w)).
Proof. intros w r w' H. inversion H; subst. reflexivity. Qed.

End Pres.

Ltac pbind := apply pres_bind; [typeclasses eauto| |].

Lemma pres_weaken {A} (R1 R2 : world -> world -> Prop) (c : M A) :
  (forall w w', R1 w w' -> R2 w w') -> pres R1 c -> pres R2 c.
Proof. intros H12 Hc w r w' H. eauto. Qed.

Lemma pres_pure {A} (R : world -> world -> Prop) `{!Reflexive R} (c : M A) :
  (forall w, snd (c w) = w) -> pres R c.
Proof. intros Hc w r w' H. specialize (Hc w). rewrite H in Hc. cbn in Hc. subst. reflexivity. Qed.



#[global] Instance keeps_links_preorder : PreOrder keeps_links.
Proof.
  split.
  - intros w. split; [reflexivity|]. intros b Hb. split; [exact Hb|reflexivity].
  - intros w1 w2 w3 [H12 L12] [H23 L23]. split; [congruence|].
    intros b Hb. destruct (L12 b Hb) as [E2 T2]. destruct (L23 b E2) as [E3 T3]. split; congruence.
Qed.

#[global] Instance keeps_deps_preorder : PreOrder keeps_deps.
Proof.
  split.
  - intros w. split; reflexivity.
  - intros w1 w2 w3 [L12 D12] [L23 D23]. split; [etrans; eauto | congruence].
Qed.


#[global] Instance same_rg_preorder : PreOrder same_rg.
Proof. split; [intros w; split; reflexivity | intros w1 w2 w3 [] []; split; congruence]. Qed.

Lemma same_rg_keeps_deps w w' : same_rg w w' -> keeps_deps w w'.
Proof.
  intros [Hr Hg]. split; [split|]; unfold branch_exists; rewrite ?Hr, ?Hg; auto.
Qed.

Lemma pres_show m : pres same_rg (show m).
Proof. apply pres_modify. intros w. split; reflexivity. Qed.

Lemma pres_select opts d : pres same_rg (select opts d).
Proof.
  intros w r w' H. unfold select in H. case_match; [case_match|]; simplify_eq; split; reflexivity.
Qed.

Lemma pres_confirm d : pres same_rg (confirm d).
Proof. pbind; [apply pres_select|intros; apply pres_ret; typeclasses eauto]. Qed.

(** Changes of the working tree or [FETCH_HEAD] only. *)
Lemma keeps_deps_tree w g :
  branches g = branches (git w) -> head g = head (git w) -> keeps_deps w (set_git g w).
Proof.
  intros Hb Hh. split; [split|]; cbn; auto.
  intros b. unfold branch_exists. cbn. rewrite Hb. auto.
Qed.

Lemma keeps_deps_advance w n g :
  head g = head (git w) -> branches g = branches (git w) -> keeps_deps w (set_git (advance_head n g) w).
Proof.
  intros Hh Hb. split; [split|]; cbn; auto.
  intros b. unfold branch_exists, advance_head. cbn. rewrite !bool_decide_eq_true.
  intros Hs. split; [|reflexivity].
  rewrite Hh. destruct (head (git w)); rewrite Hb; [|exact Hs].
  apply lookup_insert_is_Some'. auto.
Qed.

Ltac pres_at H := match type of H with ?c ?w = (?r, ?w') => refine ((_ : pres _ c) w r w' H) end.

Create HintDb presdb.

Ltac pres_fun := let w := fresh "w" in let H := fresh "H" in
  intros w ?r ?w' H; cbv beta in H; repeat (case_match; try (simplify_eq; reflexivity)); pres_at H.

Ltac solve_pres := repeat first
  [ match goal with |- PreOrder _ => typeclasses eauto end
  | solve [eauto with presdb]
  | pbind; try intros
  | apply pres_ret; typeclasses eauto
  | apply pres_raise; typeclasses eauto
  | apply pres_get; typeclasses eauto
  | apply pres_when
  | apply pres_on_error; [typeclasses eauto| |]
  | apply pres_on_cancel; [typeclasses eauto| |]
  | case_match
  | match goal with |- pres _ (fun _ => _) => pres_fun end ].

Lemma kd_show m : pres keeps_deps (show m).
Proof. eapply pres_weaken; [apply same_rg_keeps_deps|apply pres_show]. Qed.
Lemma kd_select o d : pres keeps_deps (select o d).
Proof. eapply pres_weaken; [apply same_rg_keeps_deps|apply pres_select]. Qed.
Lemma kd_confirm d : pres keeps_deps (confirm d).
Proof. eapply pres_weaken; [apply same_rg_keeps_deps|apply pres_confirm]. Qed.
#[local] Hint Resolve kd_show kd_select kd_confirm : presdb.

Lemma kd_git_reset : pres keeps_deps git_reset_to_clean_state.
Proof. apply pres_modify. intros w. apply keeps_deps_tree; reflexivity. Qed.
Lemma kd_git_clean_wrapper : pres keeps_deps git_clean_wrapper.
Proof. apply pres_modify. intros w. apply keeps_deps_tree; reflexivity. Qed.
Lemma kd_git_stash : pres keeps_deps git_stash.
Proof. apply pres_modify. intros w. apply keeps_deps_tree; reflexivity. Qed.
Lemma kd_git_fetch rb : pres keeps_deps (git_fetch rb).
Proof.
  intros w r w' H. unfold git_fetch in H. case_match; simplify_eq; [|reflexivity].
  apply keeps_deps_tree; reflexivity.
Qed.
Lemma kd_git_merge mc c : pres keeps_deps (git_merge mc c).
Proof.
  intros w r w' H. unfold git_merge in H. case_match; simplify_eq.
  - apply keeps_deps_advance; reflexivity.
  - apply keeps_deps_tree; reflexivity.
Qed.
Lemma kd_git_commit_resolution rc c : pres keeps_deps (git_commit_resolution rc c).
Proof.
  apply pres_modify. intros w. destruct (keeps_deps_advance w (rc (head_commit (git w)) c) (git w))
    as [[Hh Hb] Hd]; [reflexivity|reflexivity|].
  split; [split|]; cbn in *; auto.
Qed.
#[local] Hint Resolve kd_git_reset kd_git_clean_wrapper kd_git_stash kd_git_fetch kd_git_merge
  kd_git_commit_resolution : presdb.

Ltac pure_tac := apply pres_pure; [typeclasses eauto|]; intros w; repeat (cbn; case_match); reflexivity.

Lemma kd_fetch_head_commit : pres keeps_deps fetch_head_commit.
Proof. unfold fetch_head_commit. pure_tac. Qed.
Lemma kd_check_local_branch_name vbn b ex : pres keeps_deps (check_local_branch_name vbn b ex).
Proof. unfold check_local_branch_name. pure_tac. Qed.
Lemma kd_check_ticket_name n m : pres keeps_deps (check_ticket_name n m).
Proof. unfold check_ticket_name. pure_tac. Qed.
#[local] Hint Resolve kd_fetch_head_commit kd_check_local_branch_name kd_check_ticket_name : presdb.
Lemma kd_has_ticket_for_local_branch vbn b : pres keeps_deps (has_ticket_for_local_branch vbn b).
Proof. unfold has_ticket_for_local_branch. solve_pres. Qed.
Lemma kd_ticket_for_local_branch vbn b : pres keeps_deps (ticket_for_local_branch vbn b).
Proof. unfold ticket_for_local_branch. solve_pres. Qed.
#[local] Hint Resolve kd_has_ticket_for_local_branch kd_ticket_for_local_branch : presdb.

Lemma kd_reset_to_clean_state e h : pres keeps_deps (reset_to_clean_state e h).
Proof.
  intros w r w' H. unfold reset_to_clean_state in H. case_match.
  - simplify_eq. reflexivity.
  - pres_at H. solve_pres.
Qed.
#[local] Hint Resolve kd_reset_to_clean_state : presdb.

Lemma kd_clean e : pres keeps_deps (clean e).
Proof.
  unfold clean. pbind; [solve_pres|]. intros _ w r w' H. case_match.
  - simplify_eq. reflexivity.
  - pres_at H. solve_pres.
Qed.
#[local] Hint Resolve kd_clean : presdb.



Lemma kd_has_local_branch_for_ticket vbn t : pres keeps_deps (has_local_branch_for_ticket vbn t).
Proof.
  intros w r w' H. unfold has_local_branch_for_ticket in H.
  destruct (ticket_to_branch (reg w) !! t) as [b|] eqn:Tb; [|simplify_eq; reflexivity].
  destruct (branch_exists b w) eqn:Eb; [simplify_eq; reflexivity|].
  cbn in H. rewrite Tb in H. unfold ret in H. simplify_eq. split; [split|]; cbn; auto.
  intros b' Hb'. unfold branch_exists in *. cbn. split; [exact Hb'|].
  rewrite lookup_delete_ne; [reflexivity|]. intros <-. congruence.
Qed.
#[local] Hint Resolve kd_has_local_branch_for_ticket : presdb.

Lemma kd_local_branch_for_ticket_nopull vbn t : pres keeps_deps (local_branch_for_ticket vbn t false).
Proof.
  unfold local_branch_for_ticket. pbind; [solve_pres|]. intros [|]; cbn.
  - apply pres_local; typeclasses eauto.
  - solve_pres.
Qed.
#[local] Hint Resolve kd_local_branch_for_ticket_nopull : presdb.

Lemma kd_merge_prelude : pres keeps_deps merge_prelude.
Proof.
  intros w r w' H. unfold merge_prelude in H.
  destruct ((reset_to_clean_state true true;; clean true) w) as [r1 w1] eqn:E.
  assert (keeps_deps w w1) by (pres_at E; solve_pres).
  etrans; [eassumption|]. clear E.
  repeat case_match; simplify_eq; try reflexivity; pres_at H; solve_pres.
Qed.
#[local] Hint Resolve kd_merge_prelude : presdb.

Lemma kd_merge_plan_for vbn ct tob pull cd : pres keeps_deps (merge_plan_for vbn ct tob pull cd).
Proof. unfold merge_plan_for. solve_pres. Qed.
#[local] Hint Resolve kd_merge_plan_for : presdb.

Lemma kd_merge_commit_into_head mc rc src : pres keeps_deps (merge_commit_into_head mc rc src).
Proof.
  intros w r w' H. unfold merge_commit_into_head in H.
  destruct (git_merge mc src w) as [r1 w1] eqn:E.
  assert (keeps_deps w w1) by (pres_at E; solve_pres).
  etrans; [eassumption|]. clear E.
  case_match; pres_at H; solve_pres.
Qed.
#[local] Hint Resolve kd_merge_commit_into_head : presdb.

Lemma bind_ok {A B} (c : M A) (k : A -> M B) w a w1 :
  c w = (Ok a, w1) -> bind c k w = k a w1.
Proof. intros H. unfold bind. rewrite H. reflexivity. Qed.

Lemma bind_get {B} (k : world -> M B) w : bind get k w = k w w.
Proof. reflexivity. Qed.

Lemma keeps_links_current_ticket w w' :
  keeps_links w w' -> (forall b, head (git w) = Some b -> branch_exists b w = true) ->
  current_ticket w' = current_ticket w.
Proof.
  intros [Hh Hl] Hex. unfold current_ticket. rewrite Hh.
  destruct (head (git w)) as [b|] eqn:E; [|reflexivity].
  apply Hl, Hex. reflexivity.
Qed.

Lemma merge_prelude_ok w ct w1 :
  merge_prelude w = (Ok ct, w1) -> ct = current_ticket w1.
Proof.
  unfold merge_prelude. intros H. repeat case_match; simplify_eq; try reflexivity.
  all: unfold bind, show, modify, raise in H; cbn in H; simplify_eq.
Qed.

Lemma merge_plan_for_ticket vbn ct tob pull cd w plan w1 :
  is_ticket_name tob = true ->
  merge_plan_for vbn ct tob pull cd w = (Ok plan, w1) ->
  exists t, ticket_from_ticket_name tob = Some t /\ plan_ticket plan = Some t /\
            Some t <> ct /\ plan_create_dependency plan = default true cd.
Proof.
  intros Htn H. unfold merge_plan_for in H. rewrite bind_get, Htn in H.
  unfold is_ticket_name in Htn.
  apply bind_inv in H as [[e [_ He]]|[t [w2 [Ht H]]]]; [discriminate|].
  unfold check_ticket_name in Ht. destruct (ticket_from_ticket_name tob) as [z|] eqn:Ez; [|discriminate].
  rewrite Htn in Ht. cbn in Ht. simplify_eq.
  exists t. split; [reflexivity|].
  case_bool_decide as Hs; [unfold raise in H; discriminate|].
  apply bind_inv in H as [[e [_ He]]|[u [w3 [_ H]]]]; [discriminate|].
  apply bind_inv in H as [[e [_ He]]|[u' [w4 [_ H]]]]; [discriminate|].
  apply bind_inv in H as [[e [_ He]]|[br [w5 [_ H]]]]; [discriminate|].
  destruct (default true pull).
  - rewrite bind_get in H. destruct (trac_branch_for_ticket t w5).
    + unfold ret in H. simplify_eq. auto.
    + apply bind_inv in H as [[e [_ He]]|[? [? [_ H]]]]; [discriminate|]. unfold raise in H. discriminate.
  - unfold ret in H. simplify_eq. auto.
Qed.


Lemma record_dependency_effect t c w r w' :
  record_dependency t c w = (r, w') ->
  r = Ok tt /\ keeps_links w w' /\
  deps_of w' = (if existsb (Z.eqb t) (dependencies_for_ticket c w) then deps_of w
                else <[c := app (dependencies_for_ticket c w) [t]]> (deps_of w)).
Proof.
  unfold record_dependency. intros H. case_match.
  - simplify_eq. split; [reflexivity|]. split; [reflexivity|reflexivity].
  - unfold bind, show, modify, set_dependencies_for_ticket, upd_reg in H. cbn in H.
    destruct (dependencies_for_ticket c w) as [|d ds] eqn:D; cbn in H; unfold modify in H; simplify_eq;
      (split; [reflexivity|]; split; [split; [reflexivity|]; intros b Hb; split; [exact Hb|reflexivity]|reflexivity]).
Qed.

Lemma dependencies_for_ticket_deps_of c w w' :
  deps_of w' = deps_of w -> dependencies_for_ticket c w' = dependencies_for_ticket c w.
Proof. unfold dependencies_for_ticket, deps_of. intros ->. reflexivity. Qed.

Lemma existsb_Zeqb_In t l : existsb (Z.eqb t) l = true <-> In t l.
Proof.
  rewrite existsb_exists. split.
  - intros [x [Hx Hxt]]. apply Z.eqb_eq in Hxt. subst. exact Hx.
  - intros Hin. exists t. split; [exact Hin|apply Z.eqb_refl].
Qed.

Ltac kd_err K := destruct K as [? ?]; split; [assumption|left; split; [assumption|discriminate]].

Lemma merge_single_cases vbn mc rc tob pull cd w r w' :
  (forall b, head (git w) = Some b -> branch_exists b w = true) ->
  merge_single vbn mc rc tob pull cd w = (r, w') ->
  keeps_links w w' /\
  ((deps_of w' = deps_of w /\
    (r = Ok tt -> is_ticket_name tob = true -> default true cd = true ->
     exists t c, ticket_from_ticket_name tob = Some t /\ current_ticket w = Some c /\ t <> c /\
                 In t (dependencies_for_ticket c w)))
   \/
   (exists t c, r = Ok tt /\ current_ticket w = Some c /\ ~ In t (dependencies_for_ticket c w) /\
     deps_of w' = <[c := app (dependencies_for_ticket c w) [t]]> (deps_of w) /\
     (is_ticket_name tob = true -> ticket_from_ticket_name tob = Some t /\ t <> c))).
Proof.
  intros Hex H. unfold merge_single in H.
  apply bind_inv in H as [[e [H1 ->]]|[ct [w1 [H1 H]]]].
  { assert (K : keeps_deps w w') by (pres_at H1; solve_pres). kd_err K. }
  assert (K1 : keeps_deps w w1) by (pres_at H1; solve_pres).
  assert (Hct : ct = current_ticket w).
  { rewrite (merge_prelude_ok _ _ _ H1). apply keeps_links_current_ticket; [apply K1|exact Hex]. }
  apply bind_inv in H as [[e [H2 ->]]|[plan [w2 [H2 H]]]].
  { assert (K : keeps_deps w1 w') by (pres_at H2; solve_pres). kd_err (transitivity K1 K). }
  assert (K2 : keeps_deps w w2) by (etrans; [exact K1|pres_at H2; solve_pres]).
  apply bind_inv in H as [[e [H3 ->]]|[s [w3 [H3 H]]]].
  { assert (K : keeps_deps w2 w') by (pres_at H3; solve_pres). kd_err (transitivity K2 K). }
  assert (K3 : keeps_deps w w3) by (etrans; [exact K2|pres_at H3; solve_pres]).
  apply bind_inv in H as [[e [H4 ->]]|[u [w4 [H4 H]]]].
  { assert (K : keeps_deps w3 w') by (pres_at H4; solve_pres). kd_err (transitivity K3 K). }
  assert (K4 : keeps_deps w w4) by (etrans; [exact K3|pres_at H4; solve_pres]).
  clear H1 H3 H4.
  destruct (plan_create_dependency plan) eqn:Pcd.
  - destruct (plan_ticket plan) as [t|] eqn:Pt;
      [|unfold raise in H; simplify_eq; kd_err K4].
    destruct ct as [c|]; [|unfold raise in H; simplify_eq; kd_err K4].
    destruct (Z.eqb t 0 || Z.eqb c 0); [unfold raise in H; simplify_eq; kd_err K4|].
    apply record_dependency_effect in H as (-> & L & D).
    destruct K4 as [L4 D4].
    assert (Hd : dependencies_for_ticket c w4 = dependencies_for_ticket c w)
      by (apply dependencies_for_ticket_deps_of; exact D4).
    rewrite Hd in D. split; [etrans; [exact L4|exact L]|].
    unfold deps_of in *.
    destruct (existsb (Z.eqb t) (dependencies_for_ticket c w)) eqn:Ex; rewrite ?Ex in D.
    + left. split; [congruence|]. intros _ Htn _.
      destruct (merge_plan_for_ticket _ _ _ _ _ _ _ _ Htn H2) as (t' & Ht' & Pt' & Hne & _).
      rewrite Pt in Pt'. simplify_eq. exists t', c.
      repeat split; auto; [congruence|]. apply existsb_Zeqb_In. exact Ex.
    + right. exists t, c. split; [reflexivity|]. split; [congruence|].
      split; [intros Hin; apply existsb_Zeqb_In in Hin; congruence|].
      split; [unfold deps_of in *; rewrite D; f_equal; exact D4|].
      intros Htn.
      destruct (merge_plan_for_ticket _ _ _ _ _ _ _ _ Htn H2) as (t' & Ht' & Pt' & Hne & _).
      rewrite Pt in Pt'. simplify_eq. split; [exact Ht'|congruence].
  - unfold ret in H. simplify_eq. destruct K4 as [L4 D4]. split; [exact L4|].
    left. split; [exact D4|]. intros _ Htn Hcd.
    destruct (merge_plan_for_ticket _ _ _ _ _ _ _ _ Htn H2) as (t' & _ & _ & _ & Pc).
    congruence.
Qed.

Lemma merge_is_merge_single vbn mc rc tob pull cd :
  tob <> PStr "dependencies" -> merge vbn mc rc tob pull cd = merge_single vbn mc rc tob pull cd.
Proof. intros Hd. unfold merge. rewrite bool_decide_false by exact Hd. reflexivity. Qed.

Lemma ticket_name_not_dependencies tob : is_ticket_name tob = true -> tob <> PStr "dependencies".
Proof. intros H ->. discriminate H. Qed.

Lemma head_exists_keeps w w' :
  keeps_links w w' -> (forall b, head (git w) = Some b -> branch_exists b w = true) ->
  (forall b, head (git w') = Some b -> branch_exists b w' = true).
Proof. intros [Hh Hl] Hex b Hb. rewrite Hh in Hb. apply Hl, Hex, Hb. Qed.

Lemma count_occ_append_absent (d : list Z) t :
  ~ In t d -> count_occ Z.eq_dec (app d [t]) t = 1%nat.
Proof.
  intros Hn. rewrite count_occ_app, (proj1 (count_occ_not_In _ _ _) Hn). cbn.
  destruct (Z.eq_dec t t); [reflexivity|congruence].
Qed.


Lemma head_ok_spec w : head_ok w = true -> forall b, head (git w) = Some b -> branch_exists b w = true.
Proof. unfold head_ok. intros H b Hb. rewrite Hb in H. exact H. Qed.

Lemma ticket_from_PInt z : 0 <= z -> ticket_from_ticket_name (PInt z) = Some z.
Proof. intros Hz. cbn. destruct (Z.ltb_spec z 0); [lia|reflexivity]. Qed.

Lemma is_ticket_name_PInt z : 0 < z -> is_ticket_name (PInt z) = true.
Proof. intros Hz. unfold is_ticket_name. rewrite ticket_from_PInt by lia. apply Z.ltb_lt. exact Hz. Qed.

(** C3: after a successful [merge] of ticket [T2] with
    [create_dependency = True] while on ticket [T1], [T1 <> T2], [T2] has
    been appended to [T1]'s dependencies exactly when it was absent, it
    then occurs [max 1 k] times where [k] is its number of occurrences
    before, and running the same merge again leaves all dependency lists
    unchanged. *)
Theorem C3_thm vbn mc rc (T1 T2 : Z) (pull : option bool) (w w' : world) :
  head_ok w = true ->
  current_ticket w = Some T1 ->
  0 < T2 ->
  merge vbn mc rc (PInt T2) pull (Some true) w = (Ok tt, w') ->
  let d := dependencies_for_ticket T1 w in
  T1 <> T2 /\
  dependencies_for_ticket T1 w' = (if existsb (Z.eqb T2) d then d else app d [T2]) /\
  count_occ Z.eq_dec (dependencies_for_ticket T1 w') T2 = Nat.max 1 (count_occ Z.eq_dec d T2) /\
  (forall r'' w'', merge vbn mc rc (PInt T2) pull (Some true) w' = (r'', w'') ->
                   deps_of w'' = deps_of w').
Proof.
  intros Hh Hcur HT2 H d. pose proof (head_ok_spec w Hh) as Hex.
  assert (Htn : is_ticket_name (PInt T2) = true) by (apply is_ticket_name_PInt; exact HT2).
  rewrite merge_is_merge_single in H by (apply ticket_name_not_dependencies; exact Htn).
  destruct (merge_single_cases _ _ _ _ _ _ _ _ _ Hex H) as [L [[D Hok]|(t & c & _ & Hc & Hn & D & Ht)]].
  - destruct (Hok eq_refl Htn eq_refl) as (t & c & Ht & Hc & Hne & Hin).
    rewrite ticket_from_PInt in Ht by lia. injection Ht as <-. rewrite Hcur in Hc. injection Hc as <-.
    assert (Hd' : dependencies_for_ticket T1 w' = d) by (apply dependencies_for_ticket_deps_of; exact D).
    assert (Ex : existsb (Z.eqb T2) d = true) by (apply existsb_Zeqb_In; exact Hin).
    split; [congruence|]. rewrite Hd', Ex. split; [reflexivity|]. split.
    + apply (count_occ_In Z.eq_dec) in Hin. unfold d. lia.
    + intros r'' w'' H2.
      rewrite merge_is_merge_single in H2 by (apply ticket_name_not_dependencies; exact Htn).
      assert (Hex' := head_exists_keeps _ _ L Hex).
      destruct (merge_single_cases _ _ _ _ _ _ _ _ _ Hex' H2) as [_ [[D2 _]|(t & c & _ & Hc2 & Hn2 & _ & Ht2)]];
        [exact D2|].
      destruct (Ht2 Htn) as [Ht2' _]. rewrite ticket_from_PInt in Ht2' by lia. injection Ht2' as <-.
      rewrite (keeps_links_current_ticket _ _ L Hex), Hcur in Hc2. injection Hc2 as <-.
      exfalso. apply Hn2. rewrite Hd'. exact Hin.
  - destruct (Ht Htn) as [Ht' Hne]. rewrite ticket_from_PInt in Ht' by lia. injection Ht' as <-. rewrite Hcur in Hc. injection Hc as <-.
    fold d in Hn, D.
    assert (Ex : existsb (Z.eqb T2) d = false)
      by (apply not_true_is_false; intros E; apply existsb_Zeqb_In in E; contradiction).
    assert (Hd' : dependencies_for_ticket T1 w' = app d [T2])
      by (unfold dependencies_for_ticket; unfold deps_of in D; rewrite D, lookup_insert_eq; reflexivity).
    split; [congruence|]. rewrite Hd', Ex. split; [reflexivity|]. split.
    + rewrite count_occ_append_absent by exact Hn.
      rewrite (proj1 (count_occ_not_In _ _ _) Hn). reflexivity.
    + intros r'' w'' H2.
      rewrite merge_is_merge_single in H2 by (apply ticket_name_not_dependencies; exact Htn).
      assert (Hex' := head_exists_keeps _ _ L Hex).
      destruct (merge_single_cases _ _ _ _ _ _ _ _ _ Hex' H2) as [_ [[D2 _]|(t & c & _ & Hc2 & Hn2 & _ & Ht2)]];
        [exact D2|].
      destruct (Ht2 Htn) as [Ht2' _]. rewrite ticket_from_PInt in Ht2' by lia. injection Ht2' as <-.
      rewrite (keeps_links_current_ticket _ _ L Hex), Hcur in Hc2. injection Hc2 as <-.
      exfalso. apply Hn2. rewrite Hd'. apply in_or_app. right. left. reflexivity.
Qed.

Lemma merge_current_ticket_err vbn mc rc tob pull cd (w : world) r w' :
  head_ok w = true -> is_ticket_name tob = true ->
  ticket_from_ticket_name tob = current_ticket w ->
  merge vbn mc rc tob pull cd w = (r, w') -> exists e, r = Err e.
Proof.
  intros Hh Htn Hc H. pose proof (head_ok_spec w Hh) as Hex.
  assert (Ht : exists t, ticket_from_ticket_name tob = Some t /\ (0 <? t)%Z = true).
  { unfold is_ticket_name in Htn. destruct (ticket_from_ticket_name tob); [eauto|discriminate]. }
  destruct Ht as [t [Ht Hpos]].
  rewrite merge_is_merge_single in H by (apply ticket_name_not_dependencies; exact Htn).
  unfold merge_single in H.
  apply bind_inv in H as [[e [_ ->]]|[ct [w1 [H1 H]]]]; [eauto|].
  assert (K1 : keeps_deps w w1) by (pres_at H1; solve_pres).
  assert (Hct : ct = current_ticket w).
  { rewrite (merge_prelude_ok _ _ _ H1). apply keeps_links_current_ticket; [apply K1|exact Hex]. }
  apply bind_inv in H as [[e [_ ->]]|[plan [w2 [H2 _]]]]; [eauto|].
  exfalso. unfold merge_plan_for in H2. rewrite bind_get, Htn in H2.
  assert (Hk : check_ticket_name tob false w1 = (Ok t, w1)).
  { unfold check_ticket_name. rewrite Ht, Hpos. reflexivity. }
  erewrite bind_ok in H2 by exact Hk. cbv beta in H2.
  rewrite bool_decide_true in H2 by congruence. unfold raise in H2. discriminate.
Qed.

(** C8: a [merge] whose argument is a ticket reference fails when that
    ticket is the current ticket, and never makes a ticket list itself: a
    ticket listing itself afterwards listed itself before. *)
Theorem C8_thm vbn mc rc tob pull cd (w : world) r w' :
  head_ok w = true ->
  is_ticket_name tob = true ->
  merge vbn mc rc tob pull cd w = (r, w') ->
  (ticket_from_ticket_name tob = current_ticket w -> exists e, r = Err e) /\
  (forall X, In X (dependencies_for_ticket X w') -> In X (dependencies_for_ticket X w)).
Proof.
  intros Hh Htn H. split; [intros Hc; exact (merge_current_ticket_err _ _ _ _ _ _ _ _ _ Hh Htn Hc H)|].
  intros X HX. pose proof (head_ok_spec w Hh) as Hex.
  rewrite merge_is_merge_single in H by (apply ticket_name_not_dependencies; exact Htn).
  destruct (merge_single_cases _ _ _ _ _ _ _ _ _ Hex H) as [_ [[D _]|(t & c & _ & _ & _ & D & Ht)]].
  - rewrite (dependencies_for_ticket_deps_of _ _ _ D) in HX. exact HX.
  - destruct (Ht Htn) as [_ Hne]. unfold dependencies_for_ticket in HX. unfold deps_of in D.
    rewrite D in HX. destruct (decide (X = c)) as [->|Hxc].
    + rewrite lookup_insert_eq in HX. cbn in HX. apply in_app_or in HX as [HX|[HX|[]]]; [exact HX|congruence].
    + rewrite lookup_insert_ne in HX by congruence. exact HX.
Qed.


#[global] Instance keeps_refs_preorder : PreOrder keeps_refs.
Proof.
  split; [intros w; repeat split|].
  intros w1 w2 w3 (?&?&?&?&?&?) (?&?&?&?&?&?). repeat split; congruence.
Qed.

Lemma same_rg_keeps_refs w w' :
  same_rg w w' -> remote w' = remote w -> trc w' = trc w -> keeps_refs w w'.
Proof. intros [Hr Hg] ? ?. repeat split; rewrite ?Hg; auto. Qed.

Lemma kr_show m : pres keeps_refs (show m).
Proof. apply pres_modify. intros w. repeat split. Qed.
Lemma kr_select o d : pres keeps_refs (select o d).
Proof. intros w r w' H. unfold select in H. repeat case_match; simplify_eq; repeat split. Qed.
Lemma kr_tree (f : repo -> repo) :
  (forall g, branches (f g) = branches g /\ head (f g) = head g /\ head_commit (f g) = head_commit g) ->
  pres keeps_refs (upd_git f).
Proof. intros Hf. apply pres_modify. intros w. destruct (Hf (git w)) as (?&?&?). repeat split; cbn; auto. Qed.
Lemma kr_git_reset : pres keeps_refs git_reset_to_clean_state.
Proof. apply kr_tree. intros g. repeat split. Qed.
Lemma kr_git_clean_wrapper : pres keeps_refs git_clean_wrapper.
Proof. apply kr_tree. intros g. repeat split. Qed.
Lemma kr_git_stash : pres keeps_refs git_stash.
Proof. apply kr_tree. intros g. repeat split. Qed.
Lemma kr_check_local_branch_name vbn b ex : pres keeps_refs (check_local_branch_name vbn b ex).
Proof. unfold check_local_branch_name. pure_tac. Qed.
#[local] Hint Resolve kr_show kr_select kr_git_reset kr_git_clean_wrapper kr_git_stash
  kr_check_local_branch_name : presdb.

Lemma kr_reset_to_clean_state e h : pres keeps_refs (reset_to_clean_state e h).
Proof.
  intros w r w' H. unfold reset_to_clean_state in H. case_match.
  - simplify_eq. reflexivity.
  - pres_at H. solve_pres.
Qed.
#[local] Hint Resolve kr_reset_to_clean_state : presdb.

Lemma kr_clean e : pres keeps_refs (clean e).
Proof.
  unfold clean. pbind; [solve_pres|]. intros _ w r w' H. case_match.
  - simplify_eq. reflexivity.
  - pres_at H. solve_pres.
Qed.
#[local] Hint Resolve kr_clean : presdb.

Lemma on_cancel_ok {A} (c : M A) h w a w' : on_cancel c h w = (Ok a, w') -> c w = (Ok a, w').
Proof.
  unfold on_cancel. destruct (c w) as [[x|e] w1]; intros H; [exact H|].
  destruct e; try discriminate. destruct (h w1) as [[]]; discriminate.
Qed.

(** A successful [reset_to_clean_state] that must not leave the state unclean
    leaves no merge in progress. *)
Lemma reset_to_clean_state_ok h w u w' :
  reset_to_clean_state true h w = (Ok u, w') -> merging (git w') = false.
Proof.
  unfold reset_to_clean_state. destruct (merging (git w)) eqn:Mg; cbn.
  - unfold bind, show, modify, select. cbn.
    destruct (pick _ _ _) as [[sel rest]|]; cbn; [|discriminate].
    destruct (String.eqb sel "cancel"); cbn.
    + unfold when, show, modify, raise, bind, ret. destruct h; cbn; discriminate.
    + intros H. unfold git_reset_to_clean_state, upd_git, modify in H. simplify_eq. reflexivity.
  - intros H. simplify_eq. exact Mg.
Qed.

Lemma clean_ok e w u w' :
  merging (git w) = false -> clean e w = (Ok u, w') ->
  merging (git w') = false /\ (e = true -> tracked_dirty (git w') = false).
Proof.
  intros Mg H. unfold clean in H.
  apply bind_inv in H as [[? [_ ?]]|[u1 [w1 [H1 H]]]]; [discriminate|].
  unfold reset_to_clean_state in H1. rewrite Mg in H1. cbn in H1. simplify_eq.
  destruct (tracked_dirty (git w1)) eqn:Td; cbn in H; [|simplify_eq; auto].
  unfold bind, show, modify, select in H. cbn in H.
  destruct (pick _ _ _) as [[sel rest]|]; cbn in H; [|discriminate].
  destruct (String.eqb sel "discard"); cbn in H.
  - unfold git_clean_wrapper, upd_git, modify in H. simplify_eq. cbn. auto.
  - destruct (String.eqb sel (if e then "cancel" else "keep")); cbn in H.
    + destruct e; unfold raise, ret in H; simplify_eq. cbn. split; [exact Mg|discriminate].
    + unfold git_stash, upd_git, modify, bind, show in H. cbn in H. simplify_eq. cbn. auto.
Qed.

Lemma checkout_branch_effect vbn b h w r w' :
  checkout_branch vbn b h w = (r, w') ->
  reg w' = reg w /\ branches (git w') = branches (git w) /\ remote w' = remote w /\ trc w' = trc w /\
  (r = Ok tt -> head (git w') = Some b /\ Some (head_commit (git w')) = commit_for_branch b w /\
                merging (git w') = false /\
                (commit_for_branch b w <> Some (head_commit (git w)) -> tracked_dirty (git w') = false)) /\
  (forall e, r = Err e -> head (git w') = head (git w) /\ head_commit (git w') = head_commit (git w)).
Proof.
  intros H. unfold checkout_branch in H.
  assert (Kfin : forall w1 e, keeps_refs w w1 -> r = Err e -> w' = w1 ->
    reg w' = reg w /\ branches (git w') = branches (git w) /\ remote w' = remote w /\ trc w' = trc w /\
    (r = Ok tt -> head (git w') = Some b /\ Some (head_commit (git w')) = commit_for_branch b w /\
                  merging (git w') = false /\
                  (commit_for_branch b w <> Some (head_commit (git w)) -> tracked_dirty (git w') = false)) /\
    (forall e, r = Err e -> head (git w') = head (git w) /\ head_commit (git w') = head_commit (git w))).
  { intros w1 e (?&?&?&?&?&?) -> ->. repeat split; auto; discriminate. }
  apply bind_inv in H as [[e [H1 ->]]|[u1 [w1 [H1 H]]]].
  { eapply (Kfin w' e); [pres_at H1; solve_pres|reflexivity|reflexivity]. }
  assert (K1 : keeps_refs w w1) by (pres_at H1; solve_pres).
  apply bind_inv in H as [[e [H2 ->]]|[u2 [w2 [H2 H]]]].
  { eapply (Kfin w' e); [etrans; [exact K1|pres_at H2; solve_pres]|reflexivity|reflexivity]. }
  assert (K2 : keeps_refs w w2) by (etrans; [exact K1|pres_at H2; solve_pres]).
  assert (M2 : merging (git w2) = false) by (eapply reset_to_clean_state_ok, on_cancel_ok; exact H2).
  rewrite bind_get in H.
  apply bind_inv in H as [[e [H3 ->]]|[u3 [w3 [H3 H]]]].
  { eapply (Kfin w' e); [etrans; [exact K2|pres_at H3; solve_pres]|reflexivity|reflexivity]. }
  assert (K3 : keeps_refs w w3) by (etrans; [exact K2|pres_at H3; solve_pres]).
  apply on_cancel_ok, clean_ok in H3 as [M3 T3]; [|exact M2].
  destruct K2 as (R2 & B2 & Hh2 & C2 & _).
  assert (Ecb : commit_for_branch b w2 = commit_for_branch b w) by (unfold commit_for_branch; congruence).
  rewrite Ecb, C2 in T3.
  destruct K3 as (R3 & B3 & Hh3 & C3 & Rm3 & Tr3).
  unfold git_checkout in H. destruct (branches (git w3) !! b) as [c|] eqn:Ec; [|simplify_eq; repeat split; auto; discriminate].
  destruct (would_overwrite c (git w3)); simplify_eq; cbn; [repeat split; auto; discriminate|].
  repeat split; auto.
  + unfold commit_for_branch. congruence.
  + intros Hne. apply T3. case_bool_decide; [congruence|reflexivity].
  + discriminate.
  + discriminate.
Qed.

Lemma checkout_ticket_linked vbn (T : Z) (B : string) base w :
  ticket_to_branch (reg w) !! T = Some B -> branch_exists B w = true ->
  T ∈ tickets (trc w) -> 0 < T ->
  checkout_ticket vbn (PInt T) None base w =
  match checkout_branch vbn B true w with
  | (Ok _, w') => (Ok tt, w')
  | (Err e, w') => (Err e, w')
  end.
Proof.
  intros Htb Hex Hin HT.
  assert (Hc : check_ticket_name (PInt T) true w = (Ok T, w)).
  { unfold check_ticket_name. rewrite ticket_from_PInt by lia.
    rewrite (proj2 (Z.ltb_lt 0 T) HT), bool_decide_true by exact Hin. reflexivity. }
  assert (Hh : has_local_branch_for_ticket vbn T w = (Ok true, w)).
  { unfold has_local_branch_for_ticket. rewrite Htb, Hex. reflexivity. }
  assert (Hl : local_branch_for_ticket vbn T false w = (Ok B, w)).
  { unfold local_branch_for_ticket, bind. rewrite Hh. rewrite Htb. reflexivity. }
  unfold checkout_ticket, checkout_ticket_start. cbv [bind get ret].
  rewrite Hc, Hh, Hl.
  destruct (checkout_branch vbn B true w) as [[u|e] w'']; reflexivity.
Qed.

(** C4: for a ticket [T] linked to an existing local branch [B],
    two successive [checkout(ticket=T)], the first one successful, leave
    [B] checked out after each, and the registry (links included)
    unchanged. *)
Theorem C4_thm vbn (T : Z) (B : string) (base1 base2 : pyname) (w w1 w2 : world) (r2 : res unit) :
  ticket_to_branch (reg w) !! T = Some B -> branch_exists B w = true ->
  T ∈ tickets (trc w) -> 0 < T ->
  checkout_ticket vbn (PInt T) None base1 w = (Ok tt, w1) ->
  checkout_ticket vbn (PInt T) None base2 w1 = (r2, w2) ->
  head (git w1) = Some B /\ head (git w2) = Some B /\ reg w1 = reg w /\ reg w2 = reg w1.
Proof.
  intros Htb Hex Hin HT H1 H2.
  rewrite (checkout_ticket_linked vbn T B) in H1 by assumption.
  destruct (checkout_branch vbn B true w) as [[[]|e] w1'] eqn:E1; simplify_eq.
  destruct (checkout_branch_effect _ _ _ _ _ _ E1) as (R1 & B1 & _ & T1 & Ok1 & _).
  destruct (Ok1 eq_refl) as (Hh1 & _).
  rewrite (checkout_ticket_linked vbn T B) in H2.
  2: rewrite R1; exact Htb.
  2: unfold branch_exists in *; rewrite B1; exact Hex.
  2: rewrite T1; exact Hin.
  2: exact HT.
  destruct (checkout_branch vbn B true w1) as [[[]|e2] w2'] eqn:E2; simplify_eq;
    destruct (checkout_branch_effect _ _ _ _ _ _ E2) as (R2 & _ & _ & _ & Ok2 & Err2).
  - destruct (Ok2 eq_refl) as (Hh2 & _). auto.
  - destruct (Err2 _ eq_refl) as (Hh2 & _). split; [exact Hh1|]. split; [congruence|]. auto.
Qed.






#[global] Instance keeps_branches_preorder : PreOrder keeps_branches.
Proof. split; [intros w; reflexivity|intros w1 w2 w3 H12 H23; unfold keeps_branches in *; congruence]. Qed.

Lemma kb_of_same_rg {A} (c : M A) : pres same_rg c -> pres keeps_branches c.
Proof. apply pres_weaken. intros w w' [_ Hg]. unfold keeps_branches. rewrite Hg. reflexivity. Qed.

Lemma kb_show m : pres keeps_branches (show m).
Proof. apply kb_of_same_rg, pres_show. Qed.
Lemma kb_select o d : pres keeps_branches (select o d).
Proof. apply kb_of_same_rg, pres_select. Qed.
Lemma kb_confirm d : pres keeps_branches (confirm d).
Proof. apply kb_of_same_rg, pres_confirm. Qed.
Lemma kb_check_local_branch_name vbn b ex : pres keeps_branches (check_local_branch_name vbn b ex).
Proof. unfold check_local_branch_name. pure_tac. Qed.
Lemma kb_git_fetch rb : pres keeps_branches (git_fetch rb).
Proof. intros w r w' H. unfold git_fetch in H. case_match; simplify_eq; reflexivity. Qed.
Lemma kb_fetch_head_commit : pres keeps_branches fetch_head_commit.
Proof. unfold fetch_head_commit. pure_tac. Qed.
Lemma kb_has_local_branch_for_ticket vbn t : pres keeps_branches (has_local_branch_for_ticket vbn t).
Proof.
  intros w r w' H. unfold has_local_branch_for_ticket in H.
  repeat case_match; simplify_eq; try reflexivity.
  cbn in H. repeat case_match; unfold ret in H; simplify_eq; reflexivity.
Qed.
#[local] Hint Resolve kb_show kb_select kb_confirm kb_check_local_branch_name kb_git_fetch
  kb_fetch_head_commit kb_has_local_branch_for_ticket : presdb.


Lemma ek_of_pres {A} (c : M A) : pres keeps_branches c -> err_keeps_branches c.
Proof. intros Hc w e w' H. exact (Hc _ _ _ H). Qed.

Lemma ek_bind {A B} (c : M A) (k : A -> M B) :
  pres keeps_branches c -> (forall a, err_keeps_branches (k a)) -> err_keeps_branches (bind c k).
Proof.
  intros Hc Hk w e w' H. apply bind_inv in H as [[e' [H1 _]]|[a [w1 [H1 H2]]]].
  - exact (Hc _ _ _ H1).
  - rewrite (Hk _ _ _ _ H2). exact (Hc _ _ _ H1).
Qed.

Lemma ek_git_branch n s : err_keeps_branches (git_branch n s).
Proof. intros w e w' H. unfold git_branch in H. case_match; simplify_eq; reflexivity. Qed.

Lemma ek_git_branch_from n s : err_keeps_branches (git_branch_from n s).
Proof.
  intros w e w' H. unfold git_branch_from in H. case_match; [|simplify_eq; reflexivity].
  exact (ek_git_branch _ _ _ _ _ H).
Qed.

Ltac solve_ek := repeat first
  [ apply ek_git_branch | apply ek_git_branch_from
  | apply ek_bind; [solve [solve_pres]|intros ?]
  | apply ek_of_pres; solve [solve_pres]
  | case_match ].

Lemma ek_create_ticket_branch vbn t b base rb :
  err_keeps_branches (create_ticket_branch vbn t b base rb).
Proof. unfold create_ticket_branch. solve_ek. Qed.

#[global] Instance keeps_head_preorder : PreOrder keeps_head.
Proof. split; [intros w; reflexivity|intros w1 w2 w3 H12 H23; unfold keeps_head in *; congruence]. Qed.

Lemma kh_of_same_rg {A} (c : M A) : pres same_rg c -> pres keeps_head c.
Proof. apply pres_weaken. intros w w' [_ Hg]. unfold keeps_head. rewrite Hg. reflexivity. Qed.

Lemma kh_show m : pres keeps_head (show m).
Proof. apply kh_of_same_rg, pres_show. Qed.
Lemma kh_select o d : pres keeps_head (select o d).
Proof. apply kh_of_same_rg, pres_select. Qed.
Lemma kh_confirm d : pres keeps_head (confirm d).
Proof. apply kh_of_same_rg, pres_confirm. Qed.
Lemma kh_check_local_branch_name vbn b ex : pres keeps_head (check_local_branch_name vbn b ex).
Proof. unfold check_local_branch_name. pure_tac. Qed.
Lemma kh_git_fetch rb : pres keeps_head (git_fetch rb).
Proof. intros w r w' H. unfold git_fetch in H. case_match; simplify_eq; reflexivity. Qed.
Lemma kh_fetch_head_commit : pres keeps_head fetch_head_commit.
Proof. unfold fetch_head_commit. pure_tac. Qed.
Lemma kh_has_local_branch_for_ticket vbn t : pres keeps_head (has_local_branch_for_ticket vbn t).
Proof.
  intros w r w' H. unfold has_local_branch_for_ticket in H.
  repeat case_match; simplify_eq; try reflexivity.
  cbn in H. repeat case_match; unfold ret in H; simplify_eq; reflexivity.
Qed.
Lemma kh_git_branch n c : pres keeps_head (git_branch n c).
Proof. intros w r w' H. unfold git_branch in H. case_match; simplify_eq; reflexivity. Qed.
Lemma kh_git_branch_from n s : pres keeps_head (git_branch_from n s).
Proof.
  intros w r w' H. unfold git_branch_from in H. case_match; [exact (kh_git_branch _ _ _ _ _ H)|].
  simplify_eq. reflexivity.
Qed.
#[local] Hint Resolve kh_show kh_select kh_confirm kh_check_local_branch_name kh_git_fetch
  kh_fetch_head_commit kh_has_local_branch_for_ticket kh_git_branch kh_git_branch_from : presdb.

Lemma kh_create_ticket_branch vbn t b base rb : pres keeps_head (create_ticket_branch vbn t b base rb).
Proof. unfold create_ticket_branch. solve_pres. Qed.

(** C6: when the branch-creating block of [checkout_ticket] fails, after
    its rollback the local branches are those at the start of the block,
    except that a valid branch named [b] that already existed then, and
    was not checked out, has been deleted by the rollback. *)
Theorem C6_thm vbn (t : Z) (b : string) (base : pyname) (rb : option string) (w w' : world) (r : res unit) :
  on_error (create_ticket_branch vbn t b base rb) (rollback_branch vbn b) w = (r, w') ->
  forall e, r = Err e ->
  branches (git w') =
    (if is_local_branch_name vbn b ExTrue w && negb (bool_decide (head (git w) = Some b))
     then delete b (branches (git w)) else branches (git w)).
Proof.
  intros H e He. subst r. unfold on_error in H.
  destruct (create_ticket_branch vbn t b base rb w) as [[u|e1] w1] eqn:E; [discriminate|].
  pose proof (ek_create_ticket_branch _ _ _ _ _ _ _ _ E) as Hw1.
  pose proof (kh_create_ticket_branch _ _ _ _ _ _ _ _ E) as Hh1. unfold keeps_head in Hh1.
  assert (Hb1 : is_local_branch_name vbn b ExTrue w1 = is_local_branch_name vbn b ExTrue w).
  { unfold is_local_branch_name, branch_exists. rewrite Hw1. reflexivity. }
  unfold rollback_branch in H. rewrite Hb1 in H.
  destruct (is_local_branch_name vbn b ExTrue w); cbn [andb]; [|simplify_eq; exact Hw1].
  unfold git_branch_delete in H. rewrite Hh1 in H.
  destruct (bool_decide (head (git w) = Some b)); cbn [negb]; [simplify_eq; exact Hw1|].
  unfold upd_git, modify in H. simplify_eq. cbn. rewrite Hw1. reflexivity.
Qed.

Lemma drop_spaces_snoc l c :
  is_space c = false -> exists l', drop_spaces (app l [c]) = app l' [c].
Proof.
  intros Hc. induction l as [|a l IH]; cbn [app drop_spaces].
  - exists []. cbn [app drop_spaces]. rewrite Hc. reflexivity.
  - destruct (is_space a); [exact IH|]. exists (a :: l). reflexivity.
Qed.

Lemma py_int_t s : py_int (String "t" s) = None.
Proof.
  unfold py_int, strip. cbn [list_ascii_of_string drop_spaces].
  replace (is_space "t") with false by reflexivity.
  cbn [rev]. destruct (drop_spaces_snoc (rev (list_ascii_of_string s)) "t" eq_refl) as [l' Hl'].
  rewrite Hl', rev_unit. reflexivity.
Qed.

Lemma is_ticket_name_trash b : is_ticket_name (PStr ("trash/" ++ b)) = false.
Proof.
  unfold is_ticket_name, ticket_from_ticket_name.
  change ("trash/" ++ b) with (String "t" ("rash/" ++ b)). cbv beta iota zeta.
  replace (Ascii.eqb "t" "#") with false by reflexivity. rewrite py_int_t. reflexivity.
Qed.

Lemma is_trash_name_candidate vbn b w :
  vbn ("trash/" ++ b) = true ->
  is_trash_name vbn ("trash/" ++ b) ExFalse w = negb (branch_exists ("trash/" ++ b) w).
Proof.
  intros Hv. unfold is_trash_name, is_local_branch_name. rewrite is_ticket_name_trash, Hv.
  simpl starts_with. simpl existsb. destruct b; reflexivity.
Qed.


Lemma string_length_app s1 s2 : String.length (s1 ++ s2) = (String.length s1 + String.length s2)%nat.
Proof. induction s1 as [|a s1 IH]; simpl; [reflexivity|rewrite IH; reflexivity]. Qed.

Lemma trash_candidate_length k b :
  String.length (trash_candidate k b) = (6 + String.length b + k)%nat.
Proof.
  revert b. induction k as [|k IH]; intros b; cbn [trash_candidate].
  - rewrite string_length_app. cbn. lia.
  - rewrite IH, string_length_app. cbn. lia.
Qed.

Lemma trash_candidate_prefix k b : exists s, trash_candidate k b = "trash/" ++ s.
Proof. revert b. induction k as [|k IH]; intros b; cbn; [eauto|apply IH]. Qed.

Lemma trash_name_loop_found vbn fuel b w :
  (forall k, vbn (trash_candidate k b) = true) ->
  (exists k, (k < fuel)%nat /\ branches (git w) !! trash_candidate k b = None) ->
  exists nb, trash_name_loop vbn fuel b w = Some nb /\ starts_with "trash/" nb = true /\
             branches (git w) !! nb = None.
Proof.
  revert b. induction fuel as [|f IH]; intros b Hb [k [Hk Hn]]; [lia|].
  cbn [trash_name_loop]. rewrite is_trash_name_candidate by exact (Hb 0%nat).
  destruct (branch_exists ("trash/" ++ b) w) eqn:E; cbn.
  - destruct k as [|k]; cbn [trash_candidate] in Hn.
    + unfold branch_exists in E. rewrite Hn in E. discriminate.
    + apply IH; [intros j; exact (Hb (S j))|]. exists k. split; [lia|exact Hn].
  - exists ("trash/" ++ b). split; [reflexivity|]. split.
    + unfold starts_with. cbn. destruct b; reflexivity.
    + unfold branch_exists in E. apply bool_decide_eq_false in E.
      destruct (branches (git w) !! ("trash/" ++ b)); [exfalso; apply E; eauto|reflexivity].
Qed.

(** *** The branch-name grammar on trash names *)

Lemma string_app_assoc' s1 s2 s3 : (s1 ++ s2) ++ s3 = s1 ++ (s2 ++ s3).
Proof.
  induction s1 as [|c s1 IH]; [reflexivity|].
  change (String c ((s1 ++ s2) ++ s3) = String c (s1 ++ (s2 ++ s3))). rewrite IH. reflexivity.
Qed.

Lemma trash_candidate_snoc k b : trash_candidate (S k) b = trash_candidate k b ++ "_".
Proof.
  revert b. induction k as [|k IH]; intros b.
  - cbn [trash_candidate]. rewrite string_app_assoc'. reflexivity.
  - change (trash_candidate (S (S k)) b) with (trash_candidate (S k) (b ++ "_")).
    rewrite IH. reflexivity.
Qed.

Lemma list_ascii_of_string_app s1 s2 :
  list_ascii_of_string (s1 ++ s2) = (list_ascii_of_string s1 ++ list_ascii_of_string s2)%list.
Proof. induction s1 as [|c s1 IH]; simpl; [reflexivity|f_equal; exact IH]. Qed.

Lemma first_line_snoc l c :
  Ascii.eqb c "010" = false ->
  first_line (app l [c]) = first_line l \/ (first_line (app l [c]) = app l [c] /\ first_line l = l).
Proof.
  intros Hc. induction l as [|a l IH]; cbn [app first_line].
  - rewrite Hc. right. split; reflexivity.
  - destruct (Ascii.eqb a "010"); [left; reflexivity|].
    destruct IH as [E|[E1 E2]]; [left; rewrite E; reflexivity|right; rewrite E1, E2; split; reflexivity].
Qed.

Lemma has_pair_snoc a b l c :
  Ascii.eqb c b = false -> has_pair a b (app l [c]) = has_pair a b l.
Proof.
  intros Hc. induction l as [|x l IH]; [reflexivity|].
  destruct l as [|y l].
  - cbn. rewrite Hc, andb_false_r. reflexivity.
  - change (app (x :: y :: l) [c]) with (x :: app (y :: l) [c]).
    cbn [has_pair]. change (app (y :: l) [c]) with (y :: (app l [c])) in *.
    rewrite IH. reflexivity.
Qed.

Lemma regex_match_parts l :
  regex_match l = true -> l <> [] /\ regex_head_ok l = true /\ forallb branch_char_ok l = true.
Proof.
  unfold regex_match. intros H. apply andb_true_iff in H as [Hh Ht].
  assert (Hf : forallb branch_char_ok l = true /\ l <> []).
  { apply orb_true_iff in Ht as [Ht|Ht].
    - unfold regex_tail_ok in Ht. destruct (rev l) as [|c r] eqn:Er; [discriminate|].
      split; [apply andb_true_iff in Ht as [Ht _]; apply andb_true_iff in Ht as [_ Ht]; exact Ht|].
      intros ->. discriminate.
    - destruct (rev l) as [|c r] eqn:Er; [discriminate|].
      apply andb_true_iff in Ht as [Hc Ht].
      assert (El : l = app (rev r) [c]) by (rewrite <- (rev_involutive l), Er; reflexivity).
      split; [|rewrite El; destruct (rev r); discriminate].
      unfold regex_tail_ok in Ht. destruct (rev (rev r)); [discriminate|].
      apply andb_true_iff in Ht as [Ht _]. apply andb_true_iff in Ht as [_ Ht].
      rewrite El, forallb_app, Ht. apply Ascii.eqb_eq in Hc. subst c. reflexivity. }
  destruct Hf as [Hf Hn]. auto.
Qed.

Lemma regex_match_snoc l : regex_match l = true -> regex_match (app l ["_"%char]) = true.
Proof.
  intros H. destruct (regex_match_parts l H) as (Hn & Hh & Hf).
  unfold regex_match. apply andb_true_iff. split.
  - destruct l as [|a l]; [contradiction|]. unfold regex_head_ok in *.
    destruct (first_line_snoc (a :: l) "_" eq_refl) as [E|[E1 E2]].
    + rewrite E. exact Hh.
    + rewrite E1. rewrite E2 in Hh. rewrite !has_pair_snoc by reflexivity.
      rewrite existsb_app. cbn [existsb]. replace (Ascii.eqb "092" "_") with false by reflexivity.
      rewrite orb_false_r. exact Hh.
  - apply orb_true_iff. left. unfold regex_tail_ok. rewrite rev_unit.
    rewrite forallb_app, Hf. reflexivity.
Qed.

Lemma git_branch_regex_snoc s : git_branch_regex s = true -> git_branch_regex (s ++ "_") = true.
Proof. unfold git_branch_regex. rewrite list_ascii_of_string_app. apply regex_match_snoc. Qed.

Lemma git_branch_regex_trash b :
  git_branch_regex ("trash/" ++ b) = true -> forall k, git_branch_regex (trash_candidate k b) = true.
Proof.
  intros H k. induction k as [|k IH]; [exact H|].
  rewrite trash_candidate_snoc. apply git_branch_regex_snoc, IH.
Qed.




Lemma trash_candidate_free b (m : gmap string Z) :
  exists k, (k < S (size m))%nat /\ m !! trash_candidate k b = None.
Proof.
  set (L := map (fun k => trash_candidate k b) (seq 0 (S (size m)))).
  destruct (Stdlib.Lists.List.Forall_Exists_dec (fun x => is_Some (m !! x))
              (fun x => match m !! x as o return {is_Some o} + {~ is_Some o} with
                        | Some v => left (mk_is_Some _ _ eq_refl)
                        | None => right (fun H => is_Some_None H)
                        end) L) as [Hall|Hex].
  - exfalso.
    assert (Hnd : List.NoDup L).
    { apply Injective_map_NoDup; [|apply seq_NoDup].
      intros k1 k2 Heq. apply (f_equal String.length) in Heq.
      rewrite !trash_candidate_length in Heq. lia. }
    assert (Hincl : incl L (map fst (map_to_list m))).
    { intros x Hx. rewrite Forall_forall in Hall. destruct (Hall x (proj2 (list_elem_of_In _ _) Hx)) as [v Hv].
      apply in_map_iff. exists (x, v). split; [reflexivity|].
      apply list_elem_of_In, elem_of_map_to_list. exact Hv. }
    pose proof (NoDup_incl_length Hnd Hincl) as Hlen.
    rewrite length_map, length_map_to_list in Hlen. unfold L in Hlen.
    rewrite length_map, length_seq in Hlen. lia.
  - apply Exists_exists in Hex as [x [Hx Hn]]. unfold L in Hx.
    apply list_elem_of_In, in_map_iff in Hx as [k [<- Hk]]. apply in_seq in Hk.
    exists k. split; [lia|]. destruct (m !! trash_candidate k b); [exfalso; apply Hn; eauto|reflexivity].
Qed.


Ltac step_side := first [eassumption | reflexivity | (erewrite bind_ok by step_side; cbv beta iota; step_side)].
Ltac step H := erewrite bind_ok in H by step_side; cbv beta iota in H.

Lemma new_local_branch_for_trash_ok vbn b w :
  (forall k, vbn (trash_candidate k b) = true) ->
  exists nb, new_local_branch_for_trash vbn b w = (Ok nb, w) /\
             starts_with "trash/" nb = true /\ branches (git w) !! nb = None.
Proof.
  intros Hb.
  destruct (trash_candidate_free b (branches (git w))) as [k Hk].
  destruct (trash_name_loop_found vbn (S (size (branches (git w)))) b w Hb
              (ex_intro _ k Hk)) as [nb [Hl [Hs Hn]]].
  exists nb. unfold new_local_branch_for_trash. rewrite Hl. auto.
Qed.


Lemma is_local_branch_name_vbn vbn b w ex :
  is_local_branch_name vbn b ex w = true -> vbn b = true.
Proof.
  unfold is_local_branch_name. repeat case_match; try discriminate.
  rewrite andb_true_iff. tauto.
Qed.





Lemma bind_err {A B} (c : M A) (k : A -> M B) w e w1 :
  c w = (Err e, w1) -> bind c k w = (Err e, w1).
Proof. intros H. unfold bind. rewrite H. reflexivity. Qed.





(** ** Further properties *)

(** *** Showing dependencies *)
#[global] Instance keeps_view_preorder : PreOrder keeps_view.
Proof.
  split.
  - intros w. repeat split; reflexivity.
  - intros w1 w2 w3 (D1&H1&G1&R1&T1) (D2&H2&G2&R2&T2).
    repeat split; try congruence; intros t; rewrite H2; apply H1.
Qed.

Lemma has_local_branch_for_ticket_spec vbn t w r w' :
  has_local_branch_for_ticket vbn t w = (r, w') ->
  r = Ok (has_link t w) /\ keeps_view w w'.
Proof.
  intros H. unfold has_local_branch_for_ticket in H. unfold has_link.
  destruct (ticket_to_branch (reg w) !! t) as [b|] eqn:Tb; [|simplify_eq; split; [reflexivity|reflexivity]].
  destruct (branch_exists b w) eqn:Eb; [simplify_eq; split; reflexivity|].
  cbn in H. rewrite Tb in H. unfold ret in H. simplify_eq.
  split; [reflexivity|]. split; [reflexivity|]. split; [|repeat split].
  intros t'. unfold has_link. cbn. destruct (decide (t' = t)) as [->|Hne].
  - rewrite lookup_delete_eq, Tb, Eb. reflexivity.
  - rewrite lookup_delete_ne by congruence. reflexivity.
Qed.

Lemma keeps_view_dependencies t w w' :
  keeps_view w w' -> dependencies_for_ticket t w' = dependencies_for_ticket t w.
Proof. intros [Hd _]. apply dependencies_for_ticket_deps_of, Hd. Qed.

Lemma dependency_walk_spec vbn hasf depsf fuel stack seen w r w' :
  (forall t, hasf t = has_link t w) ->
  (forall t, depsf t = dependencies_for_ticket t w) ->
  dependency_walk vbn fuel stack seen w = (r, w') ->
  r = match walk_pure hasf depsf fuel stack seen with Some l => Ok l | None => Err Diverges end /\
  keeps_view w w'.
Proof.
  revert stack seen w. induction fuel as [|f IH]; intros stack seen w Hh Hd H.
  { cbn in H |- *. unfold raise in H. simplify_eq. split; reflexivity. }
  destruct stack as [|t stack]; cbn [dependency_walk walk_pure] in H |- *.
  { unfold ret in H. simplify_eq. split; reflexivity. }
  destruct (existsb (Z.eqb t) seen); [exact (IH _ _ _ Hh Hd H)|].
  destruct (has_local_branch_for_ticket vbn t w) as [r1 w1] eqn:E1.
  destruct (has_local_branch_for_ticket_spec _ _ _ _ _ E1) as [-> K1].
  step H. rewrite Hh.
  assert (Hh' : forall t, hasf t = has_link t w1) by (intros; destruct K1 as (_&Hh1&_); rewrite Hh1; apply Hh).
  assert (Hd' : forall t, depsf t = dependencies_for_ticket t w1)
    by (intros; rewrite Hd; symmetry; apply keeps_view_dependencies, K1).
  destruct (has_link t w) eqn:Ht; cbn in H.
  - destruct (IH _ _ _ Hh' Hd' H) as [Hr K2].
    rewrite (Hd' t). split; [exact Hr|]. etrans; eassumption.
  - unfold bind, show, modify in H.
    destruct (IH _ _ (add_shown _ w1) Hh' Hd' H) as [Hr K2].
    split; [exact Hr|]. etrans; [exact K1|]. etrans; [|exact K2]. repeat split; reflexivity.
Qed.

Lemma push_dependencies_In ds stack seen x :
  In x (push_dependencies ds stack seen) <-> In x stack \/ (In x ds /\ ~ In x seen).
Proof.
  revert stack. induction ds as [|d ds IH]; intros stack; cbn [push_dependencies].
  - cbn. tauto.
  - rewrite IH. destruct (existsb (Z.eqb d) stack || existsb (Z.eqb d) seen) eqn:E; cbn [In].
    + apply orb_true_iff in E. rewrite !existsb_Zeqb_In in E.
      split; intros Hx; [tauto|]. destruct Hx as [?|[[<-|?] ?]]; tauto.
    + apply orb_false_iff in E as [E1 E2].
      assert (~ In d stack) by (intros Hin; apply existsb_Zeqb_In in Hin; congruence).
      assert (~ In d seen) by (intros Hin; apply existsb_Zeqb_In in Hin; congruence).
      split; intros Hx; [destruct Hx as [[<-|?]|?]|]; tauto.
Qed.

Lemma push_dependencies_NoDup ds stack seen :
  List.NoDup (stack ++ seen) -> List.NoDup (push_dependencies ds stack seen ++ seen).
Proof.
  revert stack. induction ds as [|d ds IH]; intros stack Hnd; cbn [push_dependencies]; [exact Hnd|].
  apply IH. destruct (existsb (Z.eqb d) stack) eqn:Es; destruct (existsb (Z.eqb d) seen) eqn:Eg;
    cbn [orb]; try exact Hnd.
  cbn [app]. constructor; [|exact Hnd].
  rewrite in_app_iff. intros [Hin|Hin]; apply existsb_Zeqb_In in Hin; congruence.
Qed.

Section Walk.
Variable hasf : Z -> bool.
Variable depsf : Z -> list Z.
Variable root : Z.

Lemma walk_pure_prefix fuel stack seen r :
  walk_pure hasf depsf fuel stack seen = Some r -> exists s, r = app seen s.
Proof.
  revert stack seen. induction fuel as [|f IH]; intros stack seen H; [discriminate|].
  destruct stack as [|t stack]; cbn in H.
  - simplify_eq. exists []. rewrite app_nil_r. reflexivity.
  - destruct (existsb (Z.eqb t) seen); [exact (IH _ _ H)|].
    destruct (hasf t); apply IH in H as [s ->]; exists (t :: s); rewrite <- app_assoc; reflexivity.
Qed.

Lemma walk_pure_inv fuel stack seen r :
  walk_pure hasf depsf fuel stack seen = Some r ->
  List.NoDup (stack ++ seen) ->
  (forall x, In x (stack ++ seen) -> reach hasf depsf root x) ->
  (forall y, In y seen -> hasf y = true -> forall d, In d (depsf y) -> In d (stack ++ seen)) ->
  List.NoDup r /\ (forall x, In x r -> reach hasf depsf root x) /\
  (forall y, In y r -> hasf y = true -> forall d, In d (depsf y) -> In d r).
Proof.
  revert stack seen. induction fuel as [|f IH]; intros stack seen H Hnd Hr Hc; [discriminate|].
  destruct stack as [|t stack]; cbn in H.
  { simplify_eq. auto. }
  cbn [app] in Hnd. apply List.NoDup_cons_iff in Hnd as [Ht Hnd].
  destruct (existsb (Z.eqb t) seen) eqn:Es.
  { apply existsb_Zeqb_In in Es. exfalso. apply Ht, in_app_iff. auto. }
  assert (Hperm : forall x, In x (stack ++ seen ++ [t]) <-> In x (t :: stack ++ seen)).
  { intros x. cbn [In]. rewrite !in_app_iff. cbn [In]. tauto. }
  assert (Hnd' : List.NoDup (stack ++ seen ++ [t])).
  { rewrite app_assoc. apply List.NoDup_app; [exact Hnd|constructor; [intros []|constructor]|].
    intros x Hx [<-|[]]. contradiction. }
  destruct (hasf t) eqn:Hht; apply IH in H; auto.
  - apply push_dependencies_NoDup. exact Hnd'.
  - intros x Hx. apply in_app_iff in Hx as [Hx|Hx].
    + apply push_dependencies_In in Hx as [Hx|[Hx _]].
      * apply Hr. cbn. rewrite in_app_iff. auto.
      * apply reach_dep with t; auto. apply Hr. left. reflexivity.
    + apply Hr, Hperm, in_app_iff. auto.
  - intros y Hy Hhy d Hdy. rewrite in_app_iff, push_dependencies_In.
    apply in_app_iff in Hy as [Hy|[<-|[]]].
    + pose proof (Hc y Hy Hhy d Hdy) as Hin. cbn [In app] in Hin. rewrite in_app_iff in Hin.
      rewrite in_app_iff. destruct Hin as [<-|[Hin|Hin]]; cbn; auto.
    + destruct (in_dec Z.eq_dec d (seen ++ [t])); auto.
  - intros x Hx. apply Hr, Hperm, Hx.
  - intros y Hy Hhy d Hdy. apply Hperm.
    apply in_app_iff in Hy as [Hy|[<-|[]]]; [exact (Hc y Hy Hhy d Hdy)|congruence].
Qed.

Lemma walk_pure_some (U : list Z) fuel stack seen :
  List.NoDup (stack ++ seen) ->
  (forall x, In x (stack ++ seen) -> In x U) ->
  (forall y d, In d (depsf y) -> In d U) ->
  (length U - length seen < fuel)%nat ->
  walk_pure hasf depsf fuel stack seen <> None.
Proof.
  revert stack seen. induction fuel as [|f IH]; intros stack seen Hnd HU Hd Hf; [lia|].
  destruct stack as [|t stack]; cbn; [discriminate|].
  cbn [app] in Hnd. apply List.NoDup_cons_iff in Hnd as [Ht Hnd].
  destruct (existsb (Z.eqb t) seen) eqn:Es.
  { apply existsb_Zeqb_In in Es. exfalso. apply Ht, in_app_iff. auto. }
  assert (Hnd' : List.NoDup (stack ++ seen ++ [t])).
  { rewrite app_assoc. apply List.NoDup_app; [exact Hnd|constructor; [intros []|constructor]|].
    intros x Hx [<-|[]]. contradiction. }
  assert (HU' : forall x, In x (stack ++ seen ++ [t]) -> In x U).
  { intros x Hx. apply HU. cbn [In app]. rewrite !in_app_iff in *. cbn [In] in Hx. tauto. }
  assert (Hlen : (length (seen ++ [t]) <= length U)%nat).
  { apply NoDup_incl_length.
    - apply List.NoDup_app_remove_l in Hnd'. exact Hnd'.
    - intros x Hx. apply HU'. apply in_app_iff. auto. }
  rewrite length_app in Hlen. cbn in Hlen.
  destruct (hasf t); apply IH; auto.
  - apply push_dependencies_NoDup. exact Hnd'.
  - intros x Hx. apply in_app_iff in Hx as [Hx|Hx].
    + apply push_dependencies_In in Hx as [Hx|[Hx _]]; [apply HU'; apply in_app_iff; auto|exact (Hd t x Hx)].
    + apply HU'. apply in_app_iff. auto.
  - rewrite length_app. cbn. lia.
  - rewrite length_app. cbn. lia.
Qed.

End Walk.

Lemma local_branch_for_ticket_nopull_spec vbn t w r w' :
  local_branch_for_ticket vbn t false w = (r, w') ->
  r <> Err Diverges /\ keeps_view w w'.
Proof.
  intros H. unfold local_branch_for_ticket in H.
  destruct (has_local_branch_for_ticket vbn t w) as [r1 w1] eqn:E1.
  destruct (has_local_branch_for_ticket_spec _ _ _ _ _ E1) as [-> K1].
  step H. destruct (has_link t w); cbn in H; unfold raise in H; simplify_eq; split; try discriminate; exact K1.
Qed.

Lemma dependency_walk_total w t :
  walk_pure (fun y => has_link y w) (fun y => dependencies_for_ticket y w)
            (dependency_walk_fuel w) [t] [] <> None.
Proof.
  apply (walk_pure_some _ _ (t :: concat (map snd (map_to_list (ticket_dependencies (reg w)))))).
  - constructor; [intros []|constructor].
  - intros x [<-|[]]. left. reflexivity.
  - intros y d Hd. right. unfold dependencies_for_ticket in Hd.
    destruct (ticket_dependencies (reg w) !! y) as [l|] eqn:El; [|destruct Hd].
    apply in_concat. exists l. split; [|exact Hd].
    apply in_map_iff. exists (y, l). split; [reflexivity|].
    apply list_elem_of_In, elem_of_map_to_list. exact El.
  - unfold dependency_walk_fuel. cbn. lia.
Qed.

Lemma show_dependencies_ret_all vbn ticket w r w' :
  show_dependencies_ret vbn ticket true w = (r, w') ->
  r <> Err Diverges /\ keeps_view w w' /\
  forall t l, r = Ok (t, l) ->
    has_link t w = true /\
    exists s, walk_pure (fun y => has_link y w) (fun y => dependencies_for_ticket y w)
                        (dependency_walk_fuel w) [t] [] = Some s /\ l = tl s.
Proof.
  intros H. unfold show_dependencies_ret in H. rewrite bind_get in H.
  apply bind_inv in H as [[e [He ->]]|[tk [w1 [Htk H]]]].
  { destruct ticket as [|z|sn]; [destruct (current_ticket w)|..]; unfold raise, ret in He; simplify_eq.
    split; [discriminate|]. split; [reflexivity|]. discriminate. }
  assert (w1 = w) as ->.
  { destruct ticket as [|z|sn]; [destruct (current_ticket w)|..]; unfold raise, ret in Htk; simplify_eq; reflexivity. }
  apply bind_inv in H as [[e [He ->]]|[t [w2 [Ht H]]]].
  { unfold check_ticket_name in He. repeat case_match; simplify_eq;
      (split; [discriminate|]; split; [reflexivity|discriminate]). }
  assert (w2 = w) as -> by (unfold check_ticket_name in Ht; repeat case_match; simplify_eq; reflexivity).
  destruct (has_local_branch_for_ticket vbn t w) as [r3 w3] eqn:E3.
  destruct (has_local_branch_for_ticket_spec _ _ _ _ _ E3) as [-> K3].
  step H. destruct (has_link t w) eqn:Hht; cbn [negb] in H.
  2:{ unfold raise in H. simplify_eq. split; [discriminate|]. split; [exact K3|discriminate]. }
  apply bind_inv in H as [[e [He ->]]|[b [w4 [Hb H]]]].
  { apply local_branch_for_ticket_nopull_spec in He as [He K4].
    split; [intros Heq; injection Heq as ->; apply He; reflexivity|].
    split; [etrans; eassumption|discriminate]. }
  apply local_branch_for_ticket_nopull_spec in Hb as [_ K4].
  assert (K : keeps_view w w4) by (etrans; eassumption).
  rewrite bind_get in H. cbv beta match in H.
  assert (Hfuel : dependency_walk_fuel w4 = dependency_walk_fuel w)
    by (unfold dependency_walk_fuel; destruct K as [Hd _]; unfold deps_of in Hd; rewrite Hd; reflexivity).
  rewrite Hfuel in H.
  apply bind_inv in H as [[e [He ->]]|[s [w5 [Hs H]]]].
  - apply (dependency_walk_spec vbn (fun y => has_link y w) (fun y => dependencies_for_ticket y w)) in He
      as [He K5].
    2:{ intros y. destruct K as (_&Hh&_). symmetry. apply Hh. }
    2:{ intros y. symmetry. apply keeps_view_dependencies, K. }
    destruct (walk_pure _ _ _ _ _) eqn:Ew; [discriminate|].
    exfalso. exact (dependency_walk_total w t Ew).
  - apply (dependency_walk_spec vbn (fun y => has_link y w) (fun y => dependencies_for_ticket y w)) in Hs
      as [Hs K5].
    2:{ intros y. destruct K as (_&Hh&_). symmetry. apply Hh. }
    2:{ intros y. symmetry. apply keeps_view_dependencies, K. }
    unfold ret in H. simplify_eq.
    split; [discriminate|]. split; [etrans; eassumption|].
    intros t' l Heq. simplify_eq. split; [exact Hht|].
    destruct (walk_pure _ _ _ _ _) eqn:Ew; [|discriminate]. simplify_eq. eauto.
Qed.

Lemma kv_show m : pres keeps_view (show m).
Proof. intros w r w' H. unfold show, modify in H. simplify_eq. repeat split; reflexivity. Qed.

Lemma kv_check_ticket_name n m : pres keeps_view (check_ticket_name n m).
Proof. intros w r w' H. unfold check_ticket_name in H. repeat case_match; simplify_eq; reflexivity. Qed.

Lemma kv_has_local_branch_for_ticket vbn t : pres keeps_view (has_local_branch_for_ticket vbn t).
Proof. intros w r w' H. apply has_local_branch_for_ticket_spec in H. apply H. Qed.

Lemma kv_local_branch_for_ticket_nopull vbn t : pres keeps_view (local_branch_for_ticket vbn t false).
Proof. intros w r w' H. apply local_branch_for_ticket_nopull_spec in H. apply H. Qed.

Lemma kv_dependency_walk vbn f stack seen : pres keeps_view (dependency_walk vbn f stack seen).
Proof.
  intros w r w' H.
  apply (dependency_walk_spec vbn (fun y => has_link y w) (fun y => dependencies_for_ticket y w)) in H;
    [apply H|reflexivity|reflexivity].
Qed.

#[local] Hint Resolve kv_show kv_check_ticket_name kv_has_local_branch_for_ticket
  kv_local_branch_for_ticket_nopull kv_dependency_walk : presdb.

Lemma walk_pure_first hasf depsf n t :
  walk_pure hasf depsf (S n) [t] [] =
  if hasf t then walk_pure hasf depsf n (push_dependencies (depsf t) [] [t]) [t]
  else walk_pure hasf depsf n [] [t].
Proof. reflexivity. Qed.

Lemma show_dependencies_ret_ok vbn ticket w t l w' :
  show_dependencies_ret vbn ticket true w = (Ok (t, l), w') ->
  exists s, walk_pure (fun y => has_link y w) (fun y => dependencies_for_ticket y w)
                      (dependency_walk_fuel w) [t] [] = Some s /\ s = t :: l.
Proof.
  intros H. apply show_dependencies_ret_all in H as [_ [_ H]].
  destruct (H t l eq_refl) as [Hht [s [Hs ->]]].
  exists s. split; [exact Hs|].
  unfold dependency_walk_fuel in Hs. rewrite walk_pure_first in Hs. cbv beta in Hs. rewrite Hht in Hs.
  apply walk_pure_prefix in Hs as [s' ->]. reflexivity.
Qed.

Lemma show_dependencies_walk_inv vbn ticket w t l w' :
  show_dependencies_ret vbn ticket true w = (Ok (t, l), w') ->
  List.NoDup (t :: l) /\
  (forall x, In x (t :: l) -> reach (fun y => has_link y w) (fun y => dependencies_for_ticket y w) t x) /\
  (forall y, In y (t :: l) -> has_link y w = true ->
             forall d, In d (dependencies_for_ticket y w) -> In d (t :: l)).
Proof.
  intros H. apply show_dependencies_ret_ok in H as [s [Hs ->]].
  apply (walk_pure_inv _ _ t) in Hs; [exact Hs|repeat constructor; intros []| |].
  - intros x [<-|[]]. apply reach_root.
  - intros y [].
Qed.

(** X1: the dependency walk of [show_dependencies(all=True)] always ends
    with the fuel [dependency_walk_fuel w] (one step more than the tickets
    and dependency entries of the registry); it never runs out. *)
Theorem X1_thm vbn (w : world) (t : Z) :
  exists s w', dependency_walk vbn (dependency_walk_fuel w) [t] [] w = (Ok s, w').
Proof.
  destruct (dependency_walk vbn (dependency_walk_fuel w) [t] [] w) as [r w'] eqn:E.
  apply (dependency_walk_spec vbn (fun y => has_link y w) (fun y => dependencies_for_ticket y w)) in E
    as [-> _]; [|reflexivity|reflexivity].
  destruct (walk_pure _ _ _ _ _) as [s|] eqn:Ew; [eauto|].
  exfalso. exact (dependency_walk_total w t Ew).
Qed.

(** X2: [show_dependencies] changes neither the dependency lists, nor which
    tickets have a local branch, nor the repositories, nor trac. *)
Theorem X2_thm vbn (ticket : pyname) (all : bool) (w : world) :
  keeps_view w (snd (show_dependencies vbn ticket all w)).
Proof.
  destruct (show_dependencies vbn ticket all w) as [r w'] eqn:E. cbn.
  pres_at E. unfold show_dependencies, show_dependencies_ret. solve_pres.
Qed.

(** X3: the tickets listed by [show_dependencies(all=True)] have no
    duplicates and never include the ticket itself. *)
Theorem X3_thm vbn (ticket : pyname) (w : world) (t : Z) (l : list Z) (w' : world) :
  show_dependencies_ret vbn ticket true w = (Ok (t, l), w') ->
  List.NoDup l /\ ~ In t l.
Proof.
  intros H. apply show_dependencies_walk_inv in H as [Hnd _].
  apply List.NoDup_cons_iff in Hnd as [Ht Hnd]. auto.
Qed.

(** X4: the tickets listed by [show_dependencies(all=True)] are exactly the
    tickets other than [t] reachable from [t] along the dependency lists of
    tickets that have a local branch. *)
Theorem X4_thm vbn (ticket : pyname) (w : world) (t : Z) (l : list Z) (w' : world) :
  show_dependencies_ret vbn ticket true w = (Ok (t, l), w') ->
  forall x, In x l <->
            x <> t /\ reach (fun y => has_link y w) (fun y => dependencies_for_ticket y w) t x.
Proof.
  intros H x. apply show_dependencies_walk_inv in H as [Hnd [Hr Hc]].
  apply List.NoDup_cons_iff in Hnd as [Ht _]. split.
  - intros Hx. split; [intros ->; contradiction|]. apply Hr. right. exact Hx.
  - intros [Hne Hx]. cut (In x (t :: l)); [intros [->|?]; [congruence|assumption]|].
    clear Hne. induction Hx as [|y d _ IH Hy Hd]; [left; reflexivity|].
    exact (Hc y IH Hy d Hd).
Qed.

(** X5: [show_dependencies] for a positive ticket without a local branch
    fails with "ticket must be a ticket with a local branch.". *)
Theorem X5_thm vbn (ticket : pyname) (all : bool) (w : world) (t : Z) :
  ticket_from_ticket_name ticket = Some t -> 0 < t -> has_link t w = false ->
  fst (show_dependencies vbn ticket all w) = Err (SageDevValueError "ticket must be a ticket with a local branch.").
Proof.
  intros Ht Hpos Hl.
  assert (Hk : (match ticket with
                | PNone => match current_ticket w with
                           | Some ct => ret (PInt ct)
                           | None => raise (SageDevValueError "ticket must be specified")
                           end
                | _ => ret ticket
                end : M pyname) w = (Ok ticket, w))
    by (destruct ticket; [discriminate|reflexivity|reflexivity]).
  assert (Hc : check_ticket_name ticket false w = (Ok t, w)).
  { unfold check_ticket_name. rewrite Ht. apply Z.ltb_lt in Hpos. rewrite Hpos. reflexivity. }
  destruct (has_local_branch_for_ticket vbn t w) as [r1 w1] eqn:E1.
  destruct (has_local_branch_for_ticket_spec _ _ _ _ _ E1) as [-> _]. rewrite Hl in E1.
  assert (Hr : show_dependencies_ret vbn ticket all w =
               (Err (SageDevValueError "ticket must be a ticket with a local branch."), w1)).
  { unfold show_dependencies_ret. rewrite bind_get.
    erewrite bind_ok by exact Hk. cbv beta.
    erewrite bind_ok by exact Hc. cbv beta.
    erewrite bind_ok by exact E1. reflexivity. }
  unfold show_dependencies, bind at 1. rewrite Hr. reflexivity.
Qed.

(** *** Trash names and the working-tree guard *)

Lemma trash_name_loop_spec vbn fuel b w nb :
  (forall k, vbn (trash_candidate k b) = true) ->
  trash_name_loop vbn fuel b w = Some nb ->
  exists k, nb = trash_candidate k b /\ branch_exists nb w = false /\
            forall j, (j < k)%nat -> branch_exists (trash_candidate j b) w = true.
Proof.
  revert b. induction fuel as [|f IH]; intros b Hb H; [discriminate|].
  cbn [trash_name_loop] in H. rewrite is_trash_name_candidate in H by exact (Hb 0%nat).
  destruct (branch_exists ("trash/" ++ b) w) eqn:E; cbn [negb] in H.
  - apply IH in H as [k [-> [Hf Hj]]]; [|intros j; exact (Hb (S j))].
    exists (S k). split; [reflexivity|]. split; [exact Hf|].
    intros [|j] Hj'; [exact E|]. apply Hj. lia.
  - simplify_eq. exists 0%nat. split; [reflexivity|]. split; [exact E|]. intros; lia.
Qed.

(** X6: when ["trash/"+b] matches [GIT_BRANCH_REGEX],
    [_new_local_branch_for_trash(b)] returns the first name in [trash/b],
    [trash/b_], [trash/b__], ... that does not exist, and leaves the world
    unchanged. *)
Theorem X6_thm (b : string) (w : world) :
  git_branch_regex ("trash/" ++ b) = true ->
  exists k, new_local_branch_for_trash git_branch_regex b w = (Ok (trash_candidate k b), w) /\
            branch_exists (trash_candidate k b) w = false /\
            forall j, (j < k)%nat -> branch_exists (trash_candidate j b) w = true.
Proof.
  intros Hb. pose proof (git_branch_regex_trash b Hb) as Hk.
  destruct (new_local_branch_for_trash_ok git_branch_regex b w Hk) as [nb [Hn _]].
  unfold new_local_branch_for_trash in *.
  destruct (trash_name_loop git_branch_regex _ b w) as [nb'|] eqn:E; [|discriminate]. simplify_eq.
  apply trash_name_loop_spec in E as [k [-> [Hf Hj]]]; [|exact Hk]. eauto.
Qed.

(** X7: [reset_to_clean_state] (with [error_unless_clean=True]) never moves,
    creates or deletes a branch ref, and when it succeeds no merge is in
    progress. *)
Theorem X7_thm (helpful : bool) (w : world) :
  keeps_refs w (snd (reset_to_clean_state true helpful w)) /\
  (fst (reset_to_clean_state true helpful w) = Ok tt ->
   merging (git (snd (reset_to_clean_state true helpful w))) = false).
Proof.
  destruct (reset_to_clean_state true helpful w) as [r w'] eqn:E. cbn. split.
  - exact (kr_reset_to_clean_state true helpful w r w' E).
  - intros ->. exact (reset_to_clean_state_ok helpful w tt w' E).
Qed.

(** X8: [clean] (with [error_unless_clean=True]) never moves, creates or
    deletes a branch ref, and when it succeeds there is no merge in progress
    and no uncommitted change to tracked files. *)
Theorem X8_thm (w : world) :
  keeps_refs w (snd (clean true w)) /\
  (fst (clean true w) = Ok tt ->
   merging (git (snd (clean true w))) = false /\ tracked_dirty (git (snd (clean true w))) = false).
Proof.
  destruct (clean true w) as [r w'] eqn:E. cbn. split; [exact (kr_clean true w r w' E)|].
  intros ->. pose proof E as H. unfold clean in H.
  apply bind_inv in H as [[e [_ He]]|[u1 [w1 [H1 H]]]]; [discriminate|].
  pose proof (reset_to_clean_state_ok true w u1 w1 H1) as M1.
  assert (Hc : clean true w1 = (Ok tt, w')).
  { unfold clean. erewrite bind_ok; [exact H|]. unfold reset_to_clean_state. rewrite M1. destruct u1. reflexivity. }
  apply clean_ok in Hc as [Hm Ht]; [|exact M1]. auto.
Qed.

(** X9: [clean] on a tree with tracked changes and no merge, when the user
    answers "stash", succeeds by stashing: one more stash entry, the tracked
    changes gone, the untracked files left as they were, no branch ref touched. *)
Theorem X9_thm (error_unless_clean : bool) (w : world) (rest : list string) :
  merging (git w) = false -> tracked_dirty (git w) = true -> answers w = "stash" :: rest ->
  fst (clean error_unless_clean w) = Ok tt /\
  stash_size (git (snd (clean error_unless_clean w))) = S (stash_size (git w)) /\
  tracked_dirty (git (snd (clean error_unless_clean w))) = false /\
  untracked (git (snd (clean error_unless_clean w))) = untracked (git w) /\
  keeps_refs w (snd (clean error_unless_clean w)).
Proof.
  intros Mg Td Ha.
  assert (E : clean error_unless_clean w =
              (Ok tt, add_shown "Your changes have been moved to the git stash stack."
                        (set_git (repo_with_tree false false (untracked (git w)) (S (stash_size (git w)))
                                                 (git w))
                           (set_answers rest
                              (add_shown "The following files in your working directory contain uncommitted changes:" w))))).
  { unfold clean. erewrite bind_ok by (unfold reset_to_clean_state; rewrite Mg; reflexivity).
    cbv beta. rewrite Td. cbn [negb]. unfold bind, show, modify, select. cbn [answers add_shown].
    rewrite Ha. destruct error_unless_clean; cbn; rewrite Mg; reflexivity. }
  rewrite E. cbn. repeat split.
Qed.

(** X10: [checkout_branch] of a branch that does not exist fails without any
    effect, with "Invalid branch name" or "Branch does not exist locally.". *)
Theorem X10_thm vbn (b : string) (helpful : bool) (w : world) :
  branch_exists b w = false ->
  checkout_branch vbn b helpful w =
    (Err (SageDevValueError (if is_local_branch_name vbn b ExAny w
                             then "Branch does not exist locally." else "Invalid branch name")), w).
Proof.
  intros Hb. unfold checkout_branch. apply bind_err.
  unfold check_local_branch_name. destruct (is_local_branch_name vbn b ExAny w); cbn [negb].
  - rewrite Hb. reflexivity.
  - reflexivity.
Qed.

(** X11: on a clean tree, merging the current branch's own ticket fails
    with "cannot merge a ticket into itself" without any effect. *)
Theorem X11_thm vbn mc rc (tob : pyname) (pull create_dependency : option bool) (w : world) (t : Z) :
  ticket_from_ticket_name tob = Some t -> 0 < t -> current_ticket w = Some t ->
  merging (git w) = false -> tracked_dirty (git w) = false ->
  merge vbn mc rc tob pull create_dependency w =
    (Err (SageDevValueError "cannot merge a ticket into itself"), w).
Proof.
  intros Ht Hpos Hc Mg Td.
  assert (Htn : is_ticket_name tob = true)
    by (unfold is_ticket_name; rewrite Ht; apply Z.ltb_lt; exact Hpos).
  assert (Hh : exists b, head (git w) = Some b)
    by (unfold current_ticket in Hc; destruct (head (git w)); [eauto|discriminate]).
  destruct Hh as [b Hh].
  assert (Hp : merge_prelude w = (Ok (Some t), w)).
  { unfold merge_prelude.
    assert (Hrc : (reset_to_clean_state true true ;; clean true) w = (Ok tt, w)).
    { erewrite bind_ok by (unfold reset_to_clean_state; rewrite Mg; reflexivity).
      unfold clean. erewrite bind_ok by (unfold reset_to_clean_state; rewrite Mg; reflexivity).
      cbv beta. rewrite Td. reflexivity. }
    rewrite Hrc, Hh, Hc. reflexivity. }
  assert (Hk : check_ticket_name tob false w = (Ok t, w)).
  { unfold check_ticket_name. rewrite Ht. apply Z.ltb_lt in Hpos. rewrite Hpos. reflexivity. }
  unfold merge. rewrite bool_decide_false by (apply ticket_name_not_dependencies, Htn).
  unfold merge_single. erewrite bind_ok by exact Hp.
  apply bind_err. unfold merge_plan_for. rewrite bind_get, Htn.
  erewrite bind_ok by exact Hk. rewrite bool_decide_true by reflexivity. reflexivity.
Qed.

(** X12: when the branch-field step of [push] succeeds for a ticket, the
    ticket's branch field on trac is the pushed remote branch. *)
Theorem X12_thm is_anc (t : Z) (branch rb : string) (force : bool) (w : world) (u : unit) (w' : world) :
  update_branch_field is_anc (Some t) branch rb force w = (Ok u, w') ->
  trac_branch_for_ticket t w' = Some rb.
Proof.
  intros H. unfold update_branch_field in H. rewrite bind_get in H.
  case_bool_decide as Heq.
  { unfold ret in H. simplify_eq. exact Heq. }
  apply bind_inv in H as [[e [_ He]]|[u1 [w1 [_ H]]]]; [discriminate|].
  unfold set_trac_branch_field, modify in H. simplify_eq.
  unfold trac_branch_for_ticket. cbn. apply lookup_insert_eq.
Qed.

(** *** Pushing and checking out tickets *)
#[global] Instance keeps_remote_preorder : PreOrder keeps_remote.
Proof. split; [intros w; reflexivity|intros w1 w2 w3 H1 H2; unfold keeps_remote in *; congruence]. Qed.

Ltac kre_tac := intros ?w ?r ?w' ?H; repeat (unfold bind, show, modify, select, ret, raise, get,
  check_local_branch_name, set_dependencies_for_ticket, upd_reg, set_trac_branch_field,
  set_trac_dependencies, git_fetch, fetch_head_commit, local_commit in *; cbn in *;
  repeat case_match; simplify_eq); try reflexivity.

Lemma kre_show m : pres keeps_remote (show m).
Proof. kre_tac. Qed.
Lemma kre_select o d : pres keeps_remote (select o d).
Proof. kre_tac. Qed.
Lemma kre_confirm d : pres keeps_remote (confirm d).
Proof. unfold confirm. kre_tac. Qed.
Lemma kre_git_fetch rb : pres keeps_remote (git_fetch rb).
Proof. kre_tac. Qed.
Lemma kre_fetch_head_commit : pres keeps_remote fetch_head_commit.
Proof. kre_tac. Qed.
Lemma kre_local_commit b : pres keeps_remote (local_commit b).
Proof. kre_tac. Qed.
Lemma kre_set_trac_branch_field t rb : pres keeps_remote (set_trac_branch_field t rb).
Proof. kre_tac. Qed.
Lemma kre_set_trac_dependencies t ds : pres keeps_remote (set_trac_dependencies t ds).
Proof. kre_tac. Qed.
Lemma kre_check_local_branch_name vbn b ex : pres keeps_remote (check_local_branch_name vbn b ex).
Proof. kre_tac. Qed.
Lemma kre_set_dependencies_for_ticket t ds : pres keeps_remote (set_dependencies_for_ticket t ds).
Proof. kre_tac. Qed.
#[local] Hint Resolve kre_show kre_select kre_confirm kre_git_fetch kre_fetch_head_commit kre_local_commit
  kre_set_trac_branch_field kre_set_trac_dependencies kre_check_local_branch_name
  kre_set_dependencies_for_ticket : presdb.

Lemma kre_has_ticket_for_local_branch vbn b : pres keeps_remote (has_ticket_for_local_branch vbn b).
Proof. unfold has_ticket_for_local_branch. solve_pres. Qed.
Lemma kre_ticket_for_local_branch vbn b : pres keeps_remote (ticket_for_local_branch vbn b).
Proof. unfold ticket_for_local_branch. solve_pres. Qed.
#[local] Hint Resolve kre_has_ticket_for_local_branch kre_ticket_for_local_branch : presdb.

Lemma kre_update_branch_field is_anc t b rb f : pres keeps_remote (update_branch_field is_anc t b rb f).
Proof. unfold update_branch_field. solve_pres. Qed.
Lemma kre_reconcile_dependencies vbn t b : pres keeps_remote (reconcile_dependencies vbn t b).
Proof. unfold reconcile_dependencies. solve_pres. Qed.
#[local] Hint Resolve kre_update_branch_field kre_reconcile_dependencies : presdb.

(** X13: when [push] succeeds, the remote branch points to the commit of the
    pushed local branch. *)
Theorem X13_thm vbn is_anc (ticket : option Z) (branch rb : string) (force : bool) (w : world) (u : unit) (w' : world) :
  push_branch vbn is_anc ticket branch rb force w = (Ok u, w') ->
  remote w' !! rb = commit_for_branch branch w.
Proof.
  intros H. unfold push_branch in H. rewrite bind_get in H.
  apply bind_inv in H as [[e [_ He]]|[u1 [w1 [H1 H]]]]; [discriminate|].
  assert (F1 : keeps_remote w w1 /\ keeps_branches w w1 /\
               (is_remote_branch_name vbn rb ExTrue w = true -> fetch_head (git w1) = remote w !! rb)).
  { destruct (is_remote_branch_name vbn rb ExTrue w) eqn:Er; cbn [negb] in H1.
    - apply bind_inv in H1 as [[e [_ He]]|[u2 [w2 [Hf H1]]]]; [discriminate|].
      unfold git_fetch in Hf. destruct (remote w !! rb) as [c|] eqn:Ec; [|discriminate]. simplify_eq.
      apply bind_inv in H1 as [[e [_ He]]|[fh [w3 [Hfh H1]]]]; [discriminate|].
      unfold fetch_head_commit in Hfh. cbn in Hfh. simplify_eq.
      apply bind_inv in H1 as [[e [_ He]]|[lc [w4 [Hlc H1]]]]; [discriminate|].
      unfold local_commit in Hlc. destruct (commit_for_branch branch _); simplify_eq.
      destruct (negb force && negb (is_anc fh lc)).
      + apply bind_inv in H1 as [[e [_ He]]|[? [? [_ H1]]]]; [discriminate|].
        apply bind_inv in H1 as [[e [_ He]]|[? [? [_ H1]]]]; [discriminate|].
        unfold raise in H1. discriminate.
      + unfold ret in H1. simplify_eq. split; [reflexivity|]. split; [reflexivity|]. intros _. cbn. congruence.
    - split; [pres_at H1; solve_pres|]. split; [pres_at H1; solve_pres|]. discriminate. }
  destruct F1 as (R1 & B1 & Fh1).
  assert (Cb1 : commit_for_branch branch w1 = commit_for_branch branch w)
    by (unfold commit_for_branch; rewrite B1; reflexivity).
  cbv beta in H. rewrite bind_get in H.
  destruct (is_remote_branch_name vbn rb ExTrue w && negb force &&
            bool_decide (commit_for_branch branch w1 = fetch_head (git w1))) eqn:Eid.
  - apply andb_true_iff in Eid as [Eid Hid]. apply andb_true_iff in Eid as [Er _].
    apply bool_decide_eq_true in Hid.
    unfold show, modify in H. simplify_eq. cbn. rewrite R1, <- Fh1 by exact Er. congruence.
  - apply bind_inv in H as [[e [_ He]]|[u2 [w2 [H2 H]]]]; [discriminate|].
    assert (K2 : keeps_remote w1 w2 /\ keeps_branches w1 w2)
      by (split; pres_at H2; solve_pres).
    destruct K2 as [R2 B2].
    apply bind_inv in H as [[e [_ He]]|[u3 [w3 [H3 H]]]]; [discriminate|].
    assert (R3 : keeps_remote w3 w') by (pres_at H; solve_pres).
    unfold git_push in H3. destruct (branches (git w2) !! branch) as [c|] eqn:Ec; [|discriminate].
    assert (Hc : commit_for_branch branch w = Some c)
      by (rewrite <- Cb1; unfold commit_for_branch; rewrite <- B2; exact Ec).
    rewrite Hc, R3.
    destruct (remote w2 !! rb); [destruct (force || is_anc z c)|]; simplify_eq; cbn; apply lookup_insert_eq.
Qed.

(** C1: when the ticket's branch field names a remote branch [crb] other
    than the pushed one [rb]: without [force], if the remote commit of [crb]
    is not an ancestor of the local commit of the pushed branch, updating
    the field fails with the divergence error ("not a fast-forward") and
    leaves trac, the remote and the registry unchanged; with [force] the
    divergence is not checked: the field is set to [rb] when the user
    confirms, and left alone when the user refuses. *)
Lemma C1_thm is_anc t branch rb crb v lc w :
  trac_branch_for_ticket t w = Some crb -> String.eqb crb rb = false ->
  remote w !! crb = Some v -> commit_for_branch branch w = Some lc ->
  (is_anc v lc = false ->
     fst (update_branch_field is_anc (Some t) branch rb false w) =
       Err (OperationCancelledError "not a fast-forward") /\
     trc (snd (update_branch_field is_anc (Some t) branch rb false w)) = trc w /\
     remote (snd (update_branch_field is_anc (Some t) branch rb false w)) = remote w /\
     reg (snd (update_branch_field is_anc (Some t) branch rb false w)) = reg w) /\
  (hd_error (answers w) = Some "yes" ->
     fst (update_branch_field is_anc (Some t) branch rb true w) = Ok tt /\
     trac_branch_for_ticket t (snd (update_branch_field is_anc (Some t) branch rb true w)) = Some rb) /\
  (hd_error (answers w) = Some "no" ->
     fst (update_branch_field is_anc (Some t) branch rb true w) =
       Err (OperationCancelledError "user requested") /\
     trc (snd (update_branch_field is_anc (Some t) branch rb true w)) = trc w).
Proof.
  intros Htb Hne Hv Hlc. apply String.eqb_neq in Hne.
  assert (E : forall g, commit_for_branch branch (set_git (repo_with_fetch_head g (git w)) w) = Some lc)
    by (intros g; exact Hlc).
  split; [|split].
  - intros Ha. destruct (update_branch_field is_anc (Some t) branch rb false w) as [r w'] eqn:H.
    cbn [fst snd].
    unfold update_branch_field in H. step H. cbv zeta in H. rewrite Htb in H.
    rewrite bool_decide_false in H by congruence.
    unfold bind, git_fetch, fetch_head_commit, local_commit, show, modify, raise in H.
    rewrite Hv in H. cbn in H. rewrite E, Ha in H. cbn in H. injection H as <- <-. auto.
  - intros Hy. destruct (answers w) as [|a rest] eqn:Ans; [discriminate|]. injection Hy as ->.
    destruct (update_branch_field is_anc (Some t) branch rb true w) as [r w'] eqn:H.
    cbn [fst snd].
    unfold update_branch_field in H. step H. cbv zeta in H. rewrite Htb in H.
    rewrite bool_decide_false in H by congruence.
    unfold confirm, select, set_trac_branch_field in H.
    unfold bind, git_fetch, fetch_head_commit, local_commit, show, modify, raise, ret in H.
    rewrite Hv in H. cbn in H. rewrite E in H. cbn in H. rewrite Ans in H. cbn in H.
    injection H as <- <-. unfold trac_branch_for_ticket. cbn. split; [reflexivity|apply lookup_insert_eq].
  - intros Hy. destruct (answers w) as [|a rest] eqn:Ans; [discriminate|]. injection Hy as ->.
    destruct (update_branch_field is_anc (Some t) branch rb true w) as [r w'] eqn:H.
    cbn [fst snd].
    unfold update_branch_field in H. step H. cbv zeta in H. rewrite Htb in H.
    rewrite bool_decide_false in H by congruence.
    unfold confirm, select, set_trac_branch_field in H.
    unfold bind, git_fetch, fetch_head_commit, local_commit, show, modify, raise, ret in H.
    rewrite Hv in H. cbn in H. rewrite E in H. cbn in H. rewrite Ans in H. cbn in H.
    injection H as <- <-. split; reflexivity.
Qed.

(** C2: for a push without [force] to an existing remote branch at commit
    [rc] from a local branch at commit [lc]: if [rc] is not an ancestor of
    [lc] the push fails ("not a fast-forward") and neither the remote, trac
    nor the registry changes; if [lc = rc] nothing changes either, and the
    push ends successfully when [rc] counts as its own ancestor.  With
    [force], the remote branch is set to [lc] whatever [rc] is. *)
Lemma C2_thm vbn is_anc ticket branch rb rc lc w r w' :
  is_remote_branch_name vbn rb ExTrue w = true ->
  remote w !! rb = Some rc -> commit_for_branch branch w = Some lc ->
  push_branch vbn is_anc ticket branch rb false w = (r, w') ->
  (is_anc rc lc = false ->
     r = Err (OperationCancelledError "not a fast-forward") /\
     remote w' = remote w /\ trc w' = trc w /\ reg w' = reg w) /\
  (lc = rc ->
     remote w' = remote w /\ trc w' = trc w /\ reg w' = reg w /\
     (is_anc rc rc = true -> r = Ok tt)) /\
  remote (snd (push_branch vbn is_anc ticket branch rb true w)) !! rb = Some lc.
Proof.
  intros Hre Hrc Hlc H.
  split; [|split].
  3: { destruct (push_branch vbn is_anc ticket branch rb true w) as [r2 w2] eqn:H2. cbn [snd].
       unfold push_branch in H2. rewrite bind_get in H2. rewrite Hre in H2. cbn [negb] in H2.
       apply bind_inv in H2 as [[e [H1 _]]|[u1 [w1 [H1 H2]]]];
         unfold bind, git_fetch, fetch_head_commit, local_commit, ret in H1; rewrite Hrc in H1; cbn in H1;
         (assert (E : commit_for_branch branch (set_git (repo_with_fetch_head (Some rc) (git w)) w) = Some lc)
            by exact Hlc); rewrite E in H1; cbn in H1; [discriminate|injection H1 as <- <-].
       rewrite bind_get in H2. cbn [andb negb] in H2.
       apply bind_inv in H2 as [[e [H3 _]]|[u3 [w3 [H3 H2]]]]; unfold ret in H3; [discriminate|].
       injection H3 as <- <-.
       apply bind_inv in H2 as [[e [H4 _]]|[u4 [w4 [H4 H2]]]]; unfold git_push in H4; cbn in H4;
         unfold commit_for_branch in Hlc; rewrite Hlc, Hrc in H4; cbn in H4; [discriminate|].
       injection H4 as <- <-.
       assert (R : keeps_remote (set_remote (<[rb:=lc]> (remote w)) (set_git (repo_with_fetch_head (Some rc) (git w)) w)) w2)
         by (pres_at H2; solve_pres).
       unfold keeps_remote in R. rewrite R. cbn. apply lookup_insert_eq. }
  all: unfold push_branch in H; step H; cbv zeta in H; rewrite Hre in H; cbn [negb] in H;
    unfold bind at 1 in H;
    unfold bind, git_fetch, fetch_head_commit, local_commit, show, modify, raise in H;
    rewrite Hrc in H; cbn in H;
    (assert (E : commit_for_branch branch (set_git (repo_with_fetch_head (Some rc) (git w)) w) = Some lc)
      by exact Hlc);
    rewrite E in H; cbn in H.
  - intros Ha. rewrite Ha in H. cbn in H. injection H as <- <-. auto.
  - intros ->. destruct (is_anc rc rc) eqn:Ha; cbn in H.
    + rewrite bool_decide_true in H by exact Hlc. cbn in H.
      injection H as <- <-. auto.
    + injection H as <- <-. repeat split; auto. discriminate.
Qed.

(** X14: [checkout(ticket=t)] for a positive ticket that does not exist on
    trac fails with "Ticket name is not valid or ticket does not exist on
    trac." without any effect. *)
Theorem X14_thm vbn (ticket : pyname) (branch : option string) (base : pyname) (w : world) (t : Z) :
  ticket_from_ticket_name ticket = Some t -> 0 < t -> t ∉ tickets (trc w) ->
  checkout_ticket vbn ticket branch base w =
    (Err (SageDevValueError "Ticket name is not valid or ticket does not exist on trac."), w).
Proof.
  intros Ht Hp Hn. unfold checkout_ticket. apply bind_err. unfold check_ticket_name.
  rewrite Ht. apply Z.ltb_lt in Hp. rewrite Hp. cbn [negb andb]. rewrite bool_decide_false by exact Hn.
  reflexivity.
Qed.

(** *** Ticket names *)

Lemma digits_value_app xs ys a :
  digits_value (xs ++ ys)%list a =
  match digits_value xs a with Some v => digits_value ys v | None => None end.
Proof.
  revert a. induction xs as [|c xs IH]; intros a; cbn [app digits_value]; [reflexivity|].
  destruct (is_digit c); [apply IH|reflexivity].
Qed.

Lemma is_digit_of_nat k : (k < 10)%nat -> is_digit (ascii_of_nat (48 + k)) = true.
Proof.
  intros Hk. unfold is_digit. rewrite nat_ascii_embedding by lia.
  apply andb_true_iff. split; apply Nat.leb_le; lia.
Qed.

Lemma digits_rev_spec fuel n acc :
  (n < fuel)%nat ->
  exists ds, list_ascii_of_string (digits_rev fuel n acc) = (ds ++ list_ascii_of_string acc)%list /\
             ds <> [] /\ Forall (fun c => is_digit c = true) ds /\
             digits_value ds 0 = Some (Z.of_nat n).
Proof.
  revert n acc. induction fuel as [|f IH]; intros n acc Hn; [lia|].
  cbn [digits_rev].
  assert (Hm : (n mod 10 < 10)%nat) by (apply Nat.mod_upper_bound; lia).
  pose proof (is_digit_of_nat _ Hm) as Hd.
  destruct (Nat.ltb n 10) eqn:Hlt.
  - apply Nat.ltb_lt in Hlt. exists [ascii_of_nat (48 + n mod 10)].
    split; [reflexivity|]. split; [discriminate|]. split; [constructor; [exact Hd|constructor]|].
    cbn [digits_value]. rewrite Hd, nat_ascii_embedding by lia. rewrite Nat.mod_small by lia. f_equal. lia.
  - apply Nat.ltb_ge in Hlt.
    assert (Hdiv : (n / 10 < f)%nat).
    { assert (n / 10 < n)%nat by (apply Nat.div_lt; lia). lia. }
    destruct (IH (n / 10)%nat (String (ascii_of_nat (48 + n mod 10)) acc) Hdiv) as (ds & Hl & Hne & Hf & Hv).
    exists (ds ++ [ascii_of_nat (48 + n mod 10)])%list. split.
    + rewrite Hl. cbn [list_ascii_of_string]. rewrite <- app_assoc. reflexivity.
    + split; [destruct ds; [contradiction|discriminate]|]. split.
      * apply Forall_app. split; [exact Hf|constructor; [exact Hd|constructor]].
      * rewrite digits_value_app, Hv. cbn [digits_value]. rewrite Hd, nat_ascii_embedding by lia. f_equal.
        pose proof (Nat.div_mod n 10 ltac:(lia)). lia.
Qed.

Lemma is_digit_not_space c : is_digit c = true -> is_space c = false.
Proof. destruct c as [[] [] [] [] [] [] [] []]; intros H; (reflexivity || discriminate H). Qed.

Lemma is_digit_not_sign c :
  is_digit c = true -> Ascii.eqb c "+" = false /\ Ascii.eqb c "-" = false /\ Ascii.eqb c "#" = false.
Proof. destruct c as [[] [] [] [] [] [] [] []]; intros H; (split; [|split]; reflexivity) || discriminate H. Qed.

Lemma drop_spaces_id l : Forall (fun c => is_space c = false) l -> drop_spaces l = l.
Proof. intros H. destruct H as [|c l Hc _]; cbn [drop_spaces]; [reflexivity|]. rewrite Hc. reflexivity. Qed.

Lemma strip_id s :
  Forall (fun c => is_space c = false) (list_ascii_of_string s) -> strip s = list_ascii_of_string s.
Proof.
  intros H. unfold strip. rewrite (drop_spaces_id (list_ascii_of_string s) H).
  rewrite drop_spaces_id by (apply Forall_rev; exact H). apply rev_involutive.
Qed.


(** [str(z)] as a list of characters: an optional ["-"], then digits. *)
Lemma z_to_string_chars z :
  exists ds, ds <> [] /\ Forall (fun c => is_digit c = true) ds /\
             digits_value ds 0 = Some (Z.abs z) /\
             list_ascii_of_string (z_to_string z) = (if Z.ltb z 0 then "-"%char :: ds else ds).
Proof.
  unfold z_to_string.
  destruct (digits_rev_spec (S (Z.to_nat (Z.abs z))) (Z.to_nat (Z.abs z)) "" ltac:(lia))
    as (ds & Hl & Hne & Hf & Hv).
  exists ds. split; [exact Hne|]. split; [exact Hf|].
  split; [rewrite Hv, Z2Nat.id by lia; reflexivity|].
  rewrite list_ascii_of_string_app, Hl. cbn [list_ascii_of_string]. rewrite app_nil_r.
  destruct (Z.ltb z 0); reflexivity.
Qed.

Lemma py_int_z_to_string z : py_int (z_to_string z) = Some z.
Proof.
  destruct (z_to_string_chars z) as (ds & Hne & Hf & Hv & Hl).
  assert (Hsp : Forall (fun c => is_space c = false) ds)
    by (eapply Forall_impl; [exact Hf|]; intros c; apply is_digit_not_space).
  unfold py_int. rewrite strip_id by (rewrite Hl; destruct (Z.ltb z 0); [constructor; [reflexivity|exact Hsp]|exact Hsp]).
  rewrite Hl. destruct ds as [|c ds]; [contradiction|].
  destruct (Z.ltb z 0) eqn:Hz.
  - cbn -[digits_value]. rewrite Hv. cbn. f_equal. apply Z.ltb_lt in Hz. lia.
  - inversion Hf as [|? ? Hc _]. destruct (is_digit_not_sign c Hc) as (Hp & Hm & _).
    rewrite Hp, Hm. unfold parse_digits. rewrite Hv. f_equal. apply Z.ltb_ge in Hz. lia.
Qed.

(** X15: a ticket number written as ["#"+str(n)] or [str(n)], as the code
    writes ticket names, is read back as [n] when [n] is not negative and
    refused when it is; and [str(n)] is a ticket name exactly when [n] is
    positive. *)
Theorem X15_thm (z : Z) :
  ticket_from_ticket_name (PStr ("#" ++ z_to_string z)) = (if Z.ltb z 0 then None else Some z) /\
  ticket_from_ticket_name (PStr (z_to_string z)) = (if Z.ltb z 0 then None else Some z) /\
  is_ticket_name (PStr (z_to_string z)) = Z.ltb 0 z.
Proof.
  assert (H2 : ticket_from_ticket_name (PStr (z_to_string z)) = (if Z.ltb z 0 then None else Some z)).
  { destruct (z_to_string_chars z) as (ds & Hne & Hf & Hv & Hl).
    destruct (z_to_string z) as [|c s] eqn:Es.
    - destruct (Z.ltb z 0); [discriminate|]. destruct ds; [contradiction|discriminate].
    - assert (Hc : Ascii.eqb c "#" = false).
      { cbn [list_ascii_of_string] in Hl. destruct (Z.ltb z 0).
        - injection Hl as -> _. reflexivity.
        - destruct ds as [|d ds]; [contradiction|]. injection Hl as -> _.
          inversion Hf as [|? ? Hd _]. apply is_digit_not_sign, Hd. }
      unfold ticket_from_ticket_name. cbv beta iota zeta. rewrite Hc, <- Es, py_int_z_to_string.
      reflexivity. }
  split; [|split; [exact H2|]].
  - unfold ticket_from_ticket_name. change ("#" ++ z_to_string z) with (String "#" (z_to_string z)).
    cbv beta iota zeta. replace (Ascii.eqb "#" "#") with true by reflexivity.
    rewrite py_int_z_to_string. reflexivity.
  - unfold is_ticket_name. rewrite H2. destruct (Z.ltb_spec z 0) as [Hz|Hz].
    + symmetry. apply Z.ltb_ge. lia.
    + reflexivity.
Qed.

(** *** Ticket-branch links *)

Lemma has_local_branch_for_ticket_true vbn t w w1 :
  has_local_branch_for_ticket vbn t w = (Ok true, w1) ->
  w1 = w /\ exists b, ticket_to_branch (reg w) !! t = Some b /\ branch_exists b w = true.
Proof.
  unfold has_local_branch_for_ticket.
  destruct (ticket_to_branch (reg w) !! t) as [b|] eqn:Tb; [|intros H; simplify_eq].
  destruct (branch_exists b w) eqn:Eb; intros H.
  - simplify_eq. eauto.
  - cbn in H. rewrite Tb in H. unfold ret in H. simplify_eq.
Qed.

Lemma set_local_branch_for_ticket_some_ret vbn t b w b' w' :
  (set_local_branch_for_ticket vbn t (Some b) ;; ret b) w = (Ok b', w') ->
  b' = b /\ ticket_to_branch (reg w') !! t = Some b /\ branch_exists b w' = true.
Proof.
  unfold set_local_branch_for_ticket, check_local_branch_name.
  intros H. apply bind_inv in H as [(e & Hc & He)|(u & w1 & Hc & H)]; [discriminate He|].
  apply bind_inv in Hc as [(e & Hc & He)|(u' & w2 & Hc & Hu)]; [discriminate He|].
  destruct (negb (is_local_branch_name vbn b ExAny w)); [discriminate Hc|].
  destruct (branch_exists b w) eqn:Eb; [|discriminate Hc]. injection Hc as <- <-.
  unfold upd_reg, modify in Hu. injection Hu as <- <-. unfold ret in H. injection H as <- <-.
  split; [reflexivity|]. split; [cbn; apply lookup_insert_eq|exact Eb].
Qed.

(** X16: when [_local_branch_for_ticket] returns a branch, the ticket is
    linked to that branch and the branch exists, whether it was found or
    pulled from trac. *)
Theorem X16_thm vbn t pull w b w' :
  local_branch_for_ticket vbn t pull w = (Ok b, w') ->
  ticket_to_branch (reg w') !! t = Some b /\ branch_exists b w' = true.
Proof.
  unfold local_branch_for_ticket. intros H.
  apply bind_inv in H as [(e & _ & He)|([] & w1 & Hh & H)]; [discriminate He| |].
  - apply has_local_branch_for_ticket_true in Hh as (-> & b0 & Tb & Eb).
    injection H as <- <-. rewrite Tb. cbn. split; [reflexivity|exact Eb].
  - destruct pull; cbn [negb] in H; [|unfold raise in H; discriminate H].
    apply bind_inv in H as [(e & _ & He)|(z & w2 & _ & H)]; [discriminate He|].
    apply bind_inv in H as [(e & _ & He)|(w3 & w4 & Hg & H)]; [discriminate He|].
    destruct (trac_branch_for_ticket t w3) as [rb|]; [|unfold raise in H; discriminate H].
    apply bind_inv in H as [(e & _ & He)|(nb & w5 & _ & H)]; [discriminate He|].
    apply bind_inv in H as [(e & _ & He)|(u & w6 & _ & H)]; [discriminate He|].
    apply bind_inv in H as [(e & _ & He)|(c & w7 & _ & H)]; [discriminate He|].
    apply bind_inv in H as [(e & _ & He)|(u' & w8 & _ & H)]; [discriminate He|].
    apply set_local_branch_for_ticket_some_ret in H as (-> & Ht & Eb). split; assumption.
Qed.

(** X17: [_has_local_branch_for_ticket] on a ticket linked to a branch that
    no longer exists returns [False] and removes the link on both sides,
    without touching git. *)
Theorem X17_thm vbn t b w :
  ticket_to_branch (reg w) !! t = Some b -> branch_exists b w = false ->
  fst (has_local_branch_for_ticket vbn t w) = Ok false /\
  ticket_to_branch (reg (snd (has_local_branch_for_ticket vbn t w))) = delete t (ticket_to_branch (reg w)) /\
  branch_to_ticket (reg (snd (has_local_branch_for_ticket vbn t w))) = delete b (branch_to_ticket (reg w)) /\
  git (snd (has_local_branch_for_ticket vbn t w)) = git w.
Proof.
  intros Tb Eb. unfold has_local_branch_for_ticket. rewrite Tb, Eb.
  cbn. rewrite Tb. cbn. repeat split.
Qed.

(** ** Witnesses and counterexamples *)










Lemma C1_witness :
  (anc 7 5 = false ->
     fst (update_branch_field anc (Some 2) "b" "u/a/new" false wc1) = Err (OperationCancelledError "not a fast-forward") /\
     trc (snd (update_branch_field anc (Some 2) "b" "u/a/new" false wc1)) = trc wc1 /\
     remote (snd (update_branch_field anc (Some 2) "b" "u/a/new" false wc1)) = remote wc1 /\
     reg (snd (update_branch_field anc (Some 2) "b" "u/a/new" false wc1)) = reg wc1) /\
  (hd_error (answers wc1) = Some "yes" ->
     fst (update_branch_field anc (Some 2) "b" "u/a/new" true wc1) = Ok tt /\
     trac_branch_for_ticket 2 (snd (update_branch_field anc (Some 2) "b" "u/a/new" true wc1)) = Some "u/a/new") /\
  (hd_error (answers wc1) = Some "no" ->
     fst (update_branch_field anc (Some 2) "b" "u/a/new" true wc1) = Err (OperationCancelledError "user requested") /\
     trc (snd (update_branch_field anc (Some 2) "b" "u/a/new" true wc1)) = trc wc1).
Proof. apply (C1_thm anc 2 "b" "u/a/new" "u/a/2" 7 5 wc1); reflexivity. Defined.

Lemma C1_counterexample :
  trac_branch_for_ticket 2 wc1 = Some "u/a/2" /\ remote wc1 !! "u/a/2" = Some 7 /\
  commit_for_branch "b" wc1 = Some 5 /\ anc 7 5 = false /\
  let (r, w') := update_branch_field anc (Some 2) "b" "u/a/new" true wc1 in
  r = Ok tt /\ trac_branch_for_ticket 2 w' = Some "u/a/new".
Proof. vm_compute. repeat split. Qed.

Lemma C2_witness :
  let (r, w') := push_branch vb anc None "b" "u/a/b" false wc2 in
  (anc 7 5 = false ->
     r = Err (OperationCancelledError "not a fast-forward") /\
     remote w' = remote wc2 /\ trc w' = trc wc2 /\ reg w' = reg wc2) /\
  (5 = 7 ->
     remote w' = remote wc2 /\ trc w' = trc wc2 /\ reg w' = reg wc2 /\
     (anc 7 7 = true -> r = Ok tt)) /\
  remote (snd (push_branch vb anc None "b" "u/a/b" true wc2)) !! "u/a/b" = Some 5.
Proof.
  destruct (push_branch vb anc None "b" "u/a/b" false wc2) as [r w'] eqn:E.
  apply (C2_thm vb anc None "b" "u/a/b" 7 5 wc2 r w'); try reflexivity. exact E.
Defined.

Lemma C2_counterexample :
  anc 5 7 = true /\ anc 7 5 = false /\
  remote wc2 !! "u/a/b" = Some 7 /\ commit_for_branch "b" wc2 = Some 5 /\
  let (r, w') := push_branch vb anc None "b" "u/a/b" true wc2 in
  r = Ok tt /\ remote w' !! "u/a/b" = Some 5.
Proof. vm_compute. repeat split. Qed.

Lemma C3_witness :
  let w' := snd (merge vb mcm rcm (PInt 2) (Some false) (Some true) wc3) in
  let d := dependencies_for_ticket 1 wc3 in
  1 <> 2 /\
  dependencies_for_ticket 1 w' = (if existsb (Z.eqb 2) d then d else app d [2]) /\
  count_occ Z.eq_dec (dependencies_for_ticket 1 w') 2 = Nat.max 1 (count_occ Z.eq_dec d 2) /\
  (forall r'' w'', merge vb mcm rcm (PInt 2) (Some false) (Some true) w' = (r'', w'') ->
                   deps_of w'' = deps_of w').
Proof.
  apply (C3_thm vb mcm rcm 1 2 (Some false) wc3); [reflexivity | reflexivity | lia | vm_compute; reflexivity].
Defined.

Lemma C3_counterexample :
  current_ticket wc3 = Some 1 /\ dependencies_for_ticket 1 wc3 = [2; 2] /\
  let (r, w') := merge vb mcm rcm (PInt 2) (Some false) (Some true) wc3 in
  r = Ok tt /\ count_occ Z.eq_dec (dependencies_for_ticket 1 w') 2 = 2%nat.
Proof. vm_compute. repeat split. Qed.

Lemma C4_witness :
  let w1 := snd (checkout_ticket vb (PInt 1) None PNone wc4) in
  let w2 := snd (checkout_ticket vb (PInt 1) None PNone w1) in
  head (git w1) = Some "ticket/1" /\ head (git w2) = Some "ticket/1" /\ reg w1 = reg wc4 /\ reg w2 = reg w1.
Proof.
  apply (C4_thm vb 1 "ticket/1" PNone PNone wc4 _ _
           (fst (checkout_ticket vb (PInt 1) None PNone (snd (checkout_ticket vb (PInt 1) None PNone wc4)))));
    [reflexivity | reflexivity | reflexivity | lia
    | vm_compute; reflexivity | vm_compute; reflexivity].
Defined.



Lemma C6_witness :
  let (r, w') := on_error (create_ticket_branch vb 1 "ticket/2" (PStr "ticket/2") None)
                          (rollback_branch vb "ticket/2") wc3 in
  forall e, r = Err e ->
  branches (git w') =
    (if is_local_branch_name vb "ticket/2" ExTrue wc3 && negb (bool_decide (head (git wc3) = Some "ticket/2"))
     then delete "ticket/2" (branches (git wc3)) else branches (git wc3)).
Proof.
  destruct (on_error (create_ticket_branch vb 1 "ticket/2" (PStr "ticket/2") None)
                     (rollback_branch vb "ticket/2") wc3) as [r w'] eqn:E.
  exact (C6_thm vb 1 "ticket/2" (PStr "ticket/2") None wc3 w' r E).
Defined.

Lemma C6_counterexample :
  branches (git wc6) !! "ticket/2" = None /\
  (let (r, w') := checkout_ticket vb (PInt 3) None (PInt 2) wc6 in
   r = Err (OperationCancelledError "user requested") /\ branches (git w') !! "ticket/2" = Some 5) /\
  (let (r, w') := checkout_ticket vb (PInt 1) (Some "ticket/2") (PInt 2) wc6 in
   r = Err (GitError "branch already exists") /\ branches (git w') !! "ticket/2" = None).
Proof. vm_compute. repeat split. Qed.



Lemma C8_witness :
  let (r, w') := merge vb mcm rcm (PInt 2) (Some false) None wc3 in
  (ticket_from_ticket_name (PInt 2) = current_ticket wc3 -> exists e, r = Err e) /\
  (forall X, In X (dependencies_for_ticket X w') -> In X (dependencies_for_ticket X wc3)).
Proof.
  destruct (merge vb mcm rcm (PInt 2) (Some false) None wc3) as [r w'] eqn:E.
  apply (C8_thm vb mcm rcm (PInt 2) (Some false) None wc3 r w'); [reflexivity | reflexivity | exact E].
Defined.

Lemma C8_counterexample :
  trac_dependencies (trc wc8) !! 3 = Some [3] /\
  let (r, w') := checkout_ticket vb (PInt 3) None (PStr "") wc8 in
  r = Ok tt /\ dependencies_for_ticket 3 w' = [3].
Proof. vm_compute. repeat split. Qed.

Lemma C10_witness :
  let (r, w') := abandon vb (PStr "master") true wc4 in
  (exists e, r = Err e) /\ reg w' = reg wc4 /\ git w' = git wc4 /\ remote w' = remote wc4 /\ trc w' = trc wc4
  /\ (vb "master" = true -> branch_exists "master" wc4 = true ->
      r = Err (OperationCancelledError "protecting the user") /\
      hd_error (shown w') = Some "Cannot delete the master branch.").
Proof. exact (C10_thm vb true wc4). Defined.

Lemma X3_witness :
  fst (show_dependencies_ret vb (PStr "#4") true wc_deps) = Ok (4, [3; 1; 2]) /\
  List.NoDup [3; 1; 2] /\ ~ In 4 [3; 1; 2].
Proof.
  split; [vm_compute; reflexivity|].
  apply (X3_thm vb (PStr "#4") wc_deps 4 [3; 1; 2] (snd (show_dependencies_ret vb (PStr "#4") true wc_deps))).
  vm_compute. reflexivity.
Defined.

Lemma X4_witness :
  fst (show_dependencies_ret vb (PStr "#4") true wc_deps) = Ok (4, [3; 1; 2]) /\
  (In 1 [3; 1; 2] <->
   1 <> 4 /\ reach (fun y => has_link y wc_deps) (fun y => dependencies_for_ticket y wc_deps) 4 1).
Proof.
  split; [vm_compute; reflexivity|].
  assert (E : show_dependencies_ret vb (PStr "#4") true wc_deps =
              (Ok (4, [3; 1; 2]), snd (show_dependencies_ret vb (PStr "#4") true wc_deps)))
    by (vm_compute; reflexivity).
  exact (X4_thm vb (PStr "#4") wc_deps 4 [3; 1; 2] _ E 1).
Defined.

Lemma X5_witness :
  ticket_from_ticket_name (PInt 2) = Some 2 /\ 0 < 2 /\ has_link 2 wc4 = false /\
  fst (show_dependencies vb (PInt 2) true wc4) =
    Err (SageDevValueError "ticket must be a ticket with a local branch.").
Proof.
  split; [reflexivity|]. split; [lia|]. split; [reflexivity|].
  apply (X5_thm vb (PInt 2) true wc4 2); [reflexivity|lia|reflexivity].
Defined.

Lemma X6_witness :
  git_branch_regex ("trash/" ++ "b") = true /\
  exists k, new_local_branch_for_trash git_branch_regex "b" wc_trash = (Ok (trash_candidate k "b"), wc_trash) /\
            branch_exists (trash_candidate k "b") wc_trash = false /\
            forall j, (j < k)%nat -> branch_exists (trash_candidate j "b") wc_trash = true.
Proof.
  split; [reflexivity|].
  apply (X6_thm "b" wc_trash). reflexivity.
Defined.

Lemma X9_witness :
  merging (git wc_dirty) = false /\ tracked_dirty (git wc_dirty) = true /\
  answers wc_dirty = ["stash"] /\
  fst (clean true wc_dirty) = Ok tt /\
  stash_size (git (snd (clean true wc_dirty))) = S (stash_size (git wc_dirty)) /\
  tracked_dirty (git (snd (clean true wc_dirty))) = false /\
  untracked (git (snd (clean true wc_dirty))) = untracked (git wc_dirty) /\
  keeps_refs wc_dirty (snd (clean true wc_dirty)).
Proof.
  split; [reflexivity|]. split; [reflexivity|]. split; [reflexivity|].
  apply (X9_thm true wc_dirty []); reflexivity.
Defined.

Lemma X10_witness :
  branch_exists "c" wc7 = false /\
  checkout_branch vb "c" true wc7 =
    (Err (SageDevValueError (if is_local_branch_name vb "c" ExAny wc7
                             then "Branch does not exist locally." else "Invalid branch name")), wc7).
Proof.
  split; [reflexivity|]. apply (X10_thm vb "c" true wc7). reflexivity.
Defined.

Lemma X11_witness :
  ticket_from_ticket_name (PInt 1) = Some 1 /\ 0 < 1 /\ current_ticket wc3 = Some 1 /\
  merging (git wc3) = false /\ tracked_dirty (git wc3) = false /\
  merge vb mcm rcm (PInt 1) None None wc3 =
    (Err (SageDevValueError "cannot merge a ticket into itself"), wc3).
Proof.
  split; [reflexivity|]. split; [lia|]. split; [reflexivity|].
  split; [reflexivity|]. split; [reflexivity|].
  apply (X11_thm vb mcm rcm (PInt 1) None None wc3 1); [reflexivity|lia|reflexivity..].
Defined.

Lemma X12_witness :
  fst (update_branch_field anc (Some 2) "b" "u/a/new" true wc1) = Ok tt /\
  trac_branch_for_ticket 2 (snd (update_branch_field anc (Some 2) "b" "u/a/new" true wc1)) = Some "u/a/new".
Proof.
  split; [vm_compute; reflexivity|].
  apply (X12_thm anc 2 "b" "u/a/new" true wc1 tt).
  vm_compute. reflexivity.
Defined.

Lemma X13_witness :
  fst (push_branch vb anc None "b" "u/a/b" true wc2) = Ok tt /\
  remote (snd (push_branch vb anc None "b" "u/a/b" true wc2)) !! "u/a/b" = commit_for_branch "b" wc2.
Proof.
  split; [vm_compute; reflexivity|].
  apply (X13_thm vb anc None "b" "u/a/b" true wc2 tt).
  vm_compute. reflexivity.
Defined.

Lemma X14_witness :
  ticket_from_ticket_name (PInt 3) = Some 3 /\ 0 < 3 /\ (3 ∉ tickets (trc wc4)) /\
  checkout_ticket vb (PInt 3) None PNone wc4 =
    (Err (SageDevValueError "Ticket name is not valid or ticket does not exist on trac."), wc4).
Proof.
  split; [reflexivity|]. split; [lia|]. split; [cbn; set_solver|].
  apply (X14_thm vb (PInt 3) None PNone wc4 3); [reflexivity|lia|cbn; set_solver].
Defined.

Lemma X16_witness :
  fst (local_branch_for_ticket vb 2 true wc6) = Ok "ticket/2" /\
  ticket_to_branch (reg (snd (local_branch_for_ticket vb 2 true wc6))) !! 2 = Some "ticket/2" /\
  branch_exists "ticket/2" (snd (local_branch_for_ticket vb 2 true wc6)) = true.
Proof.
  split; [vm_compute; reflexivity|].
  apply (X16_thm vb 2 true wc6 "ticket/2" (snd (local_branch_for_ticket vb 2 true wc6))).
  vm_compute. reflexivity.
Defined.

Lemma X17_witness :
  ticket_to_branch (reg wc_dangling) !! 5 = Some "ticket/5" /\ branch_exists "ticket/5" wc_dangling = false /\
  fst (has_local_branch_for_ticket vb 5 wc_dangling) = Ok false /\
  ticket_to_branch (reg (snd (has_local_branch_for_ticket vb 5 wc_dangling))) =
    delete 5 (ticket_to_branch (reg wc_dangling)) /\
  branch_to_ticket (reg (snd (has_local_branch_for_ticket vb 5 wc_dangling))) =
    delete "ticket/5" (branch_to_ticket (reg wc_dangling)) /\
  git (snd (has_local_branch_for_ticket vb 5 wc_dangling)) = git wc_dangling.
Proof.
  split; [reflexivity|]. split; [reflexivity|].
  apply (X17_thm vb 5 "ticket/5" wc_dangling); reflexivity.
Defined.
